(** * LibreOffice WASM converter wrapper (src/lib/libreoffice/converter.ts)

    A shallow embedding of the [LibreOfficeConverter] class and of the
    module-level singleton accessor [getLibreOfficeConverter].

    JavaScript runs the methods of the class as coroutines on one event loop:
    an [async] method runs synchronously up to its first [await], and is
    resumed later with the settled value of the promise it waits for.  The
    embedding follows that shape.  Every method is cut at its [await]s; the
    code between two [await]s is one Rocq function over the runtime state
    (the fields of [this], the engine objects built so far, and a log of
    what the outside world has seen).  What the outside world does (the
    answer to a [fetch], the outcome of the engine's boot, a progress event
    of the engine, a timer that fires) is the label of a transition.

    Outside the model: [console] output, [performance.now] and [Date.now]
    (they only feed log lines); NaN and infinite percentages, and the text of
    the message for percentages of 1e21 and beyond, which JavaScript writes in
    exponent notation (a percentage is a rational); file names with characters beyond ASCII, where
    [String.prototype.toLowerCase] follows the Unicode case tables (what is
    proved about the input format is proved of ASCII names, see
    [Js.all_ascii]); progress callbacks that throw or call back into the
    converter (a callback is an observer: the log records the progress value
    it received and the fields of [this] it could see at that moment). *)

From Stdlib Require Import Ascii QArith Qround.
From stdpp Require Import base list strings pretty.

Local Open Scope nat_scope.

(* ===================================================================== *)
(** * JavaScript values used by the wrapper *)
(* ===================================================================== *)

Module Js.

(** [s.split(sep)] for a one-character separator: never returns []. *)
Fixpoint split (sep : ascii) (s : string) : list string :=
  match s with
  | EmptyString => [EmptyString]
  | String c s' =>
      if Ascii.eqb c sep then EmptyString :: split sep s'
      else match split sep s' with
           | seg :: segs => String c seg :: segs
           | [] => [String c EmptyString]
           end
  end.

(** [a.pop()] as used on a temporary array: the last element, [undefined]
    (here [None]) on the empty array. *)
Definition pop (a : list string) : option string := last a.

(** The ASCII lower case of a character: A-Z go to a-z, every other
    character stays. *)
Definition lower (c : ascii) : ascii :=
  let n := Ascii.nat_of_ascii c in
  if (65 <=? n)%nat && (n <=? 90)%nat then Ascii.ascii_of_nat (n + 32) else c.

(** [s.toLowerCase()] for a string [s] of ASCII characters, where the method
    is the ASCII lower case of every character.  On other strings the method
    follows the Unicode case tables (and is sensitive to context, as for a
    final sigma); those strings are outside the model, and the statements
    about [toLowerCase] are made of strings with [all_ascii]. *)
Fixpoint toLowerCase (s : string) : string :=
  match s with
  | EmptyString => EmptyString
  | String c s' => String (lower c) (toLowerCase s')
  end.

(** A character of ASCII (U+0000 to U+007F), and a string of them. *)
Definition is_ascii (c : ascii) : bool := (Ascii.nat_of_ascii c <? 128)%nat.

Fixpoint all_ascii (s : string) : bool :=
  match s with
  | EmptyString => true
  | String c s' => is_ascii c && all_ascii s'
  end.

(** [x || ''] where [x] is a string or [undefined]. *)
Definition or_empty (x : option string) : string :=
  match x with
  | Some s => s          (* the empty string is falsy and is replaced by '' *)
  | None => ""
  end.

(** [s.startsWith(p)] *)
Definition startsWith (s p : string) : bool := String.prefix p s.

(** A thrown value: an [Error] object (with its [name] and [message]) or
    anything else, kept as the text [String(v)] gives. *)
Inductive thrown :=
| ErrorObj (name message : string)
| Other (text : string).

(** [new Error(msg)] *)
Definition Error (msg : string) : thrown := ErrorObj "Error" msg.

Definition instanceof_Error (e : thrown) : bool :=
  match e with ErrorObj _ _ => true | Other _ => false end.

Definition message (e : thrown) : string :=
  match e with ErrorObj _ m => m | Other _ => "" end.

(** [`${e}`]: [Error.prototype.toString] for error objects. *)
Definition to_string (e : thrown) : string :=
  match e with
  | ErrorObj n m =>
      if String.eqb n "" then m
      else if String.eqb m "" then n
      else n +:+ ": " +:+ m
  | Other t => t
  end.

(** [`${b}`] for a boolean. *)
Definition of_bool (b : bool) : string := if b then "true" else "false".

(** [Math.round]: the nearest integer, ties towards +infinity. *)
Definition Math_round (x : Q) : Z := Qfloor (x + (1 # 2)).

(** A [fetch] response, as far as the wrapper reads it. *)
Record Response := { status : N; statusText : string }.

(** [res.ok]: the status is in the range 200-299. *)
Definition ok (res : Response) : bool :=
  ((200 <=? status res) && (status res <=? 299))%N.

(** A [File]: the wrapper reads its name; type and size are only logged. *)
Record File := { name : string; type : string; size : N }.

Record Blob := { blob_data : list Byte.byte; blob_type : string }.

(** A character in the range U+0020 to U+007E, and a string of them. *)
Definition printable (c : ascii) : bool :=
  let n := Ascii.nat_of_ascii c in (32 <=? n)%nat && (n <=? 126)%nat.

Fixpoint all_printable (s : string) : bool :=
  match s with
  | EmptyString => true
  | String c s' => printable c && all_printable s'
  end.

(** [new Blob([bytes], { type: t })]: the constructor keeps the bytes and
    normalises the type: the empty string when [t] has a character outside
    U+0020 to U+007E, and [t] in ASCII lower case otherwise. *)
Definition new_Blob (bytes : list Byte.byte) (t : string) : Blob :=
  {| blob_data := bytes;
     blob_type := if all_printable t then toLowerCase t else "" |}.

End Js.

Import Js.

(* ===================================================================== *)
(** * Constants and plain data *)
(* ===================================================================== *)

Definition LIBREOFFICE_PATH : string := "/libreoffice-wasm/".
Definition ASSET_VERSION : string := "20240212-3".

Record LoadProgress := {
  phase : string;
  percent : Q;
  message : string
}.

(** What the engine passes to its [onProgress] option. *)
Record ProgressInfo := {
  info_phase : string;
  info_percent : Q;
  info_message : string
}.

(** A caller-supplied [ProgressCallback], known by an identifier. *)
Abbreviation ProgressCallback := nat (only parsing).

(** An engine object ([WorkerBrowserConverter]), known by its allocation
    index. *)
Abbreviation handle := nat (only parsing).

(** The fields of the class. *)
Record LibreOfficeConverter := {
  converter : option handle;
  initialized : bool;
  initializing : bool;
  basePath : string
}.

(** [constructor(basePath?)]: [basePath || LIBREOFFICE_PATH]. *)
Definition new_LibreOfficeConverter (basePath : option string) : LibreOfficeConverter :=
  {| converter := None;
     initialized := false;
     initializing := false;
     basePath := match basePath with
                 | Some p => if String.eqb p "" then LIBREOFFICE_PATH else p
                 | None => LIBREOFFICE_PATH
                 end |}.

Definition set_converter (c : option handle) (o : LibreOfficeConverter) :=
  {| converter := c; initialized := initialized o;
     initializing := initializing o; basePath := basePath o |}.
Definition set_initialized (b : bool) (o : LibreOfficeConverter) :=
  {| converter := converter o; initialized := b;
     initializing := initializing o; basePath := basePath o |}.
Definition set_initializing (b : bool) (o : LibreOfficeConverter) :=
  {| converter := converter o; initialized := initialized o;
     initializing := b; basePath := basePath o |}.

(** [isReady()] *)
Definition isReady (o : LibreOfficeConverter) : bool :=
  initialized o && bool_decide (converter o ≠ None).

(** The options object given to [new WorkerBrowserConverter]. *)
Record EngineOptions := {
  sofficeJs : string;
  sofficeWasm : string;
  sofficeData : string;
  sofficeWorkerJs : string;
  browserWorkerJs : string;
  verbose : bool
}.

(** [`${this.basePath}${file}?v=${ASSET_VERSION}`] *)
Definition asset_url (base file : string) : string :=
  base +:+ file +:+ "?v=" +:+ ASSET_VERSION.

Definition engine_options (base : string) : EngineOptions :=
  {| sofficeJs := asset_url base "soffice.js";
     sofficeWasm := asset_url base "soffice.wasm";
     sofficeData := asset_url base "soffice.data";
     sofficeWorkerJs := asset_url base "soffice.worker.js";
     browserWorkerJs := asset_url base "browser.worker.global.js";
     verbose := false |}.

(** The [files] array of [checkEnvironment], in its order. *)
Definition files : list string :=
  [ "soffice.wasm"; "soffice.data"; "soffice.js"; "soffice.worker.js";
    "browser.worker.global.js" ].

(** The input format [convert] derives from the file name (the [ext]
    constant): [file.name.split('.').pop()?.toLowerCase() || '']. *)
Definition ext (file_name : string) : string :=
  or_empty (toLowerCase <$> pop (split "."%char file_name)).

(* ===================================================================== *)
(** * Errors thrown by the wrapper *)
(* ===================================================================== *)

(** The error of [checkEnvironment] when the page is not cross-origin
    isolated or [SharedArrayBuffer] is undefined (lines 147-151). *)
Definition environment_error (isIsolated : bool) : thrown :=
  Error ("SharedArrayBuffer is not available (crossOriginIsolated="
         +:+ of_bool isIsolated +:+ "). "
         +:+ "Your server must set Cross-Origin-Opener-Policy and Cross-Origin-Embedder-Policy headers. "
         +:+ "See browser console for details.").

(** The error for an asset answered with a non-success status (line 178). *)
Definition asset_status_error (file : string) (res : Response) : thrown :=
  Error ("Required file " +:+ file +:+ " returned HTTP " +:+ pretty (status res)).

(** The error for an asset whose request failed (line 183). *)
Definition asset_network_error (file : string) (e : thrown) : thrown :=
  Error ("Cannot fetch " +:+ file +:+ ": " +:+ to_string e).

(** The [catch] block of the asset loop (lines 180-184), applied to whatever
    the [try] block threw. *)
Definition catch_asset (file : string) (e : thrown) : thrown :=
  if instanceof_Error e && startsWith (Js.message e) "Required file" then e
  else asset_network_error file e.

(** The error of [convert] without an engine handle (line 196). *)
Definition not_initialized_error : thrown := Error "Converter not initialized".

(** What [this.converter.convert(...)] throws when [this.converter] is
    [null] at that moment. *)
Definition null_converter_error : thrown :=
  ErrorObj "TypeError" "Cannot read properties of null (reading 'convert')".

(* ===================================================================== *)
(** * Runtime state *)
(* ===================================================================== *)

(** The ambient browser state [checkEnvironment] reads. *)
Record Browser := {
  crossOriginIsolated : bool;        (* window.crossOriginIsolated *)
  hasSharedArrayBuffer : bool        (* typeof SharedArrayBuffer !== 'undefined' *)
}.

(** An engine object built by [initialize]: its options, and the
    [progressCallback] variable of the [initialize] call that built it, which
    the [onProgress] closure of the options reads. *)
Record Engine := {
  options : EngineOptions;
  progressCallback : option ProgressCallback
}.

(** The result the engine's [convert] resolves with. *)
Record EngineResult := { data : list Byte.byte; mimeType : string }.

(** What the outside world sees the wrapper do. *)
Inductive event :=
| Progress (cb : ProgressCallback) (p : LoadProgress) (seen : LibreOfficeConverter)
    (* a progress callback runs; [seen] is [this] at that moment *)
| FetchHead (url : string)
| EngineNew (h : handle) (o : EngineOptions)
| EngineInitialize (h : handle)
| EngineConvert (h : handle) (input : list Byte.byte)
    (outputFormat inputFormat filename : string)
| EngineDestroy (h : handle).

Record Runtime := {
  this : LibreOfficeConverter;
  engines : list Engine;
  log : list event
}.

Definition set_this (f : LibreOfficeConverter -> LibreOfficeConverter) (r : Runtime) :=
  {| this := f (this r); engines := engines r; log := log r |}.
Definition emit (e : event) (r : Runtime) :=
  {| this := this r; engines := engines r; log := log r ++ [e] |}.
Definition set_engines (es : list Engine) (r : Runtime) :=
  {| this := this r; engines := es; log := log r |}.

(** [progressCallback?.(p)] *)
Definition notify (cb : option ProgressCallback) (p : LoadProgress) (r : Runtime) : Runtime :=
  match cb with
  | Some f => emit (Progress f p (this r)) r
  | None => r
  end.

(* ===================================================================== *)
(** * Tasks: method calls cut at their awaits *)
(* ===================================================================== *)

(** What a promise settles with. *)
Inductive value :=
| VUndefined
| VResponse (res : Response)
| VBuffer (bytes : list Byte.byte)
| VConverted (res : EngineResult).

Inductive settled :=
| Fulfilled (v : value)
| Rejected (e : thrown).

(** Where a suspended call waits, with the local variables it still needs. *)
Inductive cont :=
| PollSleep
    (* initialize, line 60: the 100ms timer of the polling loop *)
| CheckFailed (cb : option ProgressCallback) (e : thrown)
    (* initialize, line 72: checkEnvironment() has thrown [e] *)
| CheckFetch (cb : option ProgressCallback) (file : string) (rest : list string)
    (* checkEnvironment, line 166: the HEAD request for [file] *)
| CheckPassed (cb : option ProgressCallback)
    (* initialize, line 72: checkEnvironment() has returned *)
| Booting (cb : option ProgressCallback) (h : handle)
    (* initialize, line 103: the engine's initialize() *)
| ReadingFile (file : File) (outputFormat : string)
    (* convert, line 203: file.arrayBuffer() *)
| Converting (file : File)
    (* convert, line 210: the engine's convert() *)
| Destroying.
    (* destroy, line 245: the engine's destroy() *)

(** What a finished call gave its caller. *)
Inductive outcome :=
| Returned                      (* Promise<void> resolved *)
| ReturnedBlob (b : Blob)       (* Promise<Blob> resolved *)
| Threw (e : thrown).           (* promise rejected *)

Inductive task :=
| Suspended (k : cont)
| Done (o : outcome).

(** ** initialize *)

(** The asset loop of [checkEnvironment] (lines 162-185) entering its next
    iteration: it issues the HEAD request of the next file, or leaves the
    loop. *)
Definition next_asset (cb : option ProgressCallback) (todo : list string)
    (r : Runtime) : Runtime * task :=
  match todo with
  | file :: rest =>
      (emit (FetchHead (asset_url (basePath (this r)) file)) r,
       Suspended (CheckFetch cb file rest))
  | [] => (r, Suspended (CheckPassed cb))
  end.

(** [checkEnvironment()] up to its first await (lines 123-166). *)
Definition checkEnvironment (env : Browser) (cb : option ProgressCallback)
    (r : Runtime) : Runtime * task :=
  let isIsolated := crossOriginIsolated env in
  let hasSAB := hasSharedArrayBuffer env in
  if negb isIsolated || negb hasSAB
  then (r, Suspended (CheckFailed cb (environment_error isIsolated)))
  else next_asset cb files r.

(** The [finally] block of [initialize] (line 115). *)
Definition finally_initialize (r : Runtime) : Runtime :=
  set_this (set_initializing false) r.

(** [initialize(onProgress)] up to its first await (lines 55-72). *)
Definition initialize (env : Browser) (onProgress : option ProgressCallback)
    (r : Runtime) : Runtime * task :=
  if initialized (this r) then (r, Done Returned)
  else if initializing (this r) then (r, Suspended PollSleep)
  else
    let r := set_this (set_initializing true) r in
    let r := notify onProgress
               {| phase := "loading"; percent := 0; message := "Checking environment..." |} r in
    checkEnvironment env onProgress r.

(** The answer to a HEAD request arrives (lines 166-185). *)
Definition asset_answer (cb : option ProgressCallback) (file : string)
    (rest : list string) (s : settled) (r : Runtime) : option (Runtime * task) :=
  match s with
  | Fulfilled (VResponse res) =>
      if ok res then Some (next_asset cb rest r)
      else Some (r, Suspended (CheckFailed cb (catch_asset file (asset_status_error file res))))
  | Rejected e => Some (r, Suspended (CheckFailed cb (catch_asset file e)))
  | Fulfilled _ => None
  end.

(** [initialize] after [checkEnvironment] returned (lines 74-103): the
    engine is built, stored in [this.converter], and asked to boot. *)
Definition start_engine (cb : option ProgressCallback) (r : Runtime) : Runtime * task :=
  let r := notify cb
             {| phase := "loading"; percent := 5; message := "Loading conversion engine..." |} r in
  let h := length (engines r) in
  let o := engine_options (basePath (this r)) in
  let r := emit (EngineNew h o)
             (set_engines (engines r ++ [{| options := o; progressCallback := cb |}]) r) in
  let r := set_this (set_converter (Some h)) r in
  (emit (EngineInitialize h) r, Suspended (Booting cb h)).

(** The [progressCallback = undefined] of line 113, seen from the closure of
    the engine this call built. *)
Definition clear_progressCallback (h : handle) (r : Runtime) : Runtime :=
  match engines r !! h with
  | Some e => set_engines (<[h := {| options := options e; progressCallback := None |}]> (engines r)) r
  | None => r
  end.

(** [initialize] after the engine's boot settled (lines 103-116). *)
Definition boot_answer (cb : option ProgressCallback) (h : handle) (s : settled)
    (r : Runtime) : option (Runtime * task) :=
  match s with
  | Fulfilled _ =>
      let r := set_this (set_initialized true) r in
      let r := notify cb
                 {| phase := "ready"; percent := 100; message := "Conversion engine ready!" |} r in
      let r := clear_progressCallback h r in
      Some (finally_initialize r, Done Returned)
  | Rejected e => Some (finally_initialize r, Done (Threw e))
  end.

(** The [onProgress] option of the engine (lines 83-92). *)
Definition onProgress (h : handle) (info : ProgressInfo) (r : Runtime) : Runtime :=
  match engines r !! h with
  | Some e =>
      match progressCallback e with
      | Some f =>
          if negb (initialized (this r)) then
            let simplifiedMessage :=
              "Loading conversion engine (" +:+ pretty (Math_round (info_percent info)) +:+ "%)..." in
            emit (Progress f {| phase := info_phase info;
                                percent := info_percent info;
                                message := simplifiedMessage |} (this r)) r
          else r
      | None => r
      end
  | None => r
  end.

(** The polling loop of [initialize] after its timer fired (lines 59-62). *)
Definition poll_answer (r : Runtime) : Runtime * task :=
  if initializing (this r) then (r, Suspended PollSleep) else (r, Done Returned).

(** [initialize] resumed after [checkEnvironment()] threw: the error leaves
    through the [finally] block. *)
Definition check_failed (e : thrown) (r : Runtime) : Runtime * task :=
  (finally_initialize r, Done (Threw e)).

(** ** convert *)

(** [convert(file, outputFormat)] up to its first await (lines 194-203). *)
Definition convert (file : File) (outputFormat : string) (r : Runtime) : Runtime * task :=
  match converter (this r) with
  | None => (r, Done (Threw not_initialized_error))
  | Some _ => (r, Suspended (ReadingFile file outputFormat))
  end.

(** [convert] after [file.arrayBuffer()] settled (lines 203-213, 221-224):
    [this.converter] is read again here. *)
Definition buffer_answer (file : File) (outputFormat : string) (s : settled)
    (r : Runtime) : option (Runtime * task) :=
  match s with
  | Fulfilled (VBuffer uint8Array) =>
      match converter (this r) with
      | Some h =>
          Some (emit (EngineConvert h uint8Array outputFormat (ext (name file)) (name file)) r,
                Suspended (Converting file))
      | None => Some (r, Done (Threw null_converter_error))
      end
  | Rejected e => Some (r, Done (Threw e))
  | Fulfilled _ => None
  end.

(** [convert] after the engine's [convert] settled (lines 210-224). *)
Definition convert_answer (s : settled) (r : Runtime) : option (Runtime * task) :=
  match s with
  | Fulfilled (VConverted result) =>
      Some (r, Done (ReturnedBlob (new_Blob (data result) (mimeType result))))
  | Rejected e => Some (r, Done (Threw e))
  | Fulfilled _ => None
  end.

Definition convertToPdf (file : File) := convert file "pdf".
Definition wordToPdf (file : File) := convertToPdf file.
Definition pptToPdf (file : File) := convertToPdf file.
Definition excelToPdf (file : File) := convertToPdf file.

(** ** destroy *)

(** Lines 247-248. *)
Definition clear_handle (r : Runtime) : Runtime :=
  set_this (set_initialized false) (set_this (set_converter None) r).

(** [destroy()] up to its first await (lines 243-245); without an engine
    handle there is no await and the call runs to its end. *)
Definition destroy (r : Runtime) : Runtime * task :=
  match converter (this r) with
  | Some h => (emit (EngineDestroy h) r, Suspended Destroying)
  | None => (clear_handle r, Done Returned)
  end.

(** [destroy] after the engine's [destroy] settled (lines 245-249). *)
Definition destroy_answer (s : settled) (r : Runtime) : option (Runtime * task) :=
  match s with
  | Fulfilled _ => Some (clear_handle r, Done Returned)
  | Rejected e => Some (r, Done (Threw e))
  end.

(* ===================================================================== *)
(** * The event loop *)
(* ===================================================================== *)

Inductive operation :=
| Initialize (onProgress : option ProgressCallback)
| Convert (file : File) (outputFormat : string)
| Destroy.

(** One turn of the event loop. *)
Inductive label :=
| Call (o : operation)
    (* a caller invokes a method; the call gets the next task number *)
| Resume (t : nat) (s : settled)
    (* the promise task [t] awaits has settled with [s] *)
| EngineProgress (h : handle) (info : ProgressInfo).
    (* engine [h] reports progress through its onProgress option *)

Record World := {
  rt : Runtime;
  tasks : list task
}.

Definition call (env : Browser) (o : operation) (r : Runtime) : Runtime * task :=
  match o with
  | Initialize cb => initialize env cb r
  | Convert file outputFormat => convert file outputFormat r
  | Destroy => destroy r
  end.

(** Resuming a suspended call; [None] when [s] is not a value the awaited
    promise can settle with. *)
Definition resume (k : cont) (s : settled) (r : Runtime) : option (Runtime * task) :=
  match k with
  | PollSleep =>
      match s with Fulfilled VUndefined => Some (poll_answer r) | _ => None end
  | CheckFailed cb e =>
      match s with Fulfilled VUndefined => Some (check_failed e r) | _ => None end
  | CheckFetch cb file rest => asset_answer cb file rest s r
  | CheckPassed cb =>
      match s with Fulfilled VUndefined => Some (start_engine cb r) | _ => None end
  | Booting cb h => boot_answer cb h s r
  | ReadingFile file outputFormat => buffer_answer file outputFormat s r
  | Converting file => convert_answer s r
  | Destroying => destroy_answer s r
  end.

(** A label that does not apply (no such task, a task that is done, a value
    of the wrong kind) leaves the world as it is. *)
Definition step (env : Browser) (l : label) (w : World) : World :=
  match l with
  | Call o =>
      let '(r, tk) := call env o (rt w) in
      {| rt := r; tasks := tasks w ++ [tk] |}
  | Resume t s =>
      match tasks w !! t with
      | Some (Suspended k) =>
          match resume k s (rt w) with
          | Some (r, tk) => {| rt := r; tasks := <[t := tk]> (tasks w) |}
          | None => w
          end
      | _ => w
      end
  | EngineProgress h info =>
      {| rt := onProgress h info (rt w); tasks := tasks w |}
  end.

Definition run (env : Browser) (ls : list label) (w : World) : World :=
  foldl (fun w l => step env l w) w ls.

(** A converter object right after [new LibreOfficeConverter(basePath)]. *)
Definition fresh (basePath : option string) : World :=
  {| rt := {| this := new_LibreOfficeConverter basePath; engines := []; log := [] |};
     tasks := [] |}.

(** The worlds a converter object can be in. *)
Definition reachable (env : Browser) (w : World) : Prop :=
  exists basePath ls, w = run env ls (fresh basePath).

(* ===================================================================== *)
(** * The module: the singleton accessor *)
(* ===================================================================== *)

Module Singleton.

(** Converter objects live in a heap and are known by their address; each
    carries its own event loop state. *)
Record Module_state := {
  heap : list World;
  converterInstance : option nat;    (* the module variable, line 43 *)
  returned : list nat                (* what each accessor call returned *)
}.

(** [getLibreOfficeConverter(basePath?)] (lines 252-257), with the
    reference it returns. *)
Definition getLibreOfficeConverter (basePath : option string) (m : Module_state)
    : nat * Module_state :=
  match converterInstance m with
  | Some a => (a, m)
  | None =>
      let a := length (heap m) in
      (a, {| heap := heap m ++ [fresh basePath];
             converterInstance := Some a;
             returned := returned m |})
  end.

Inductive action :=
| Get (basePath : option string)
    (* a call of getLibreOfficeConverter *)
| New (basePath : option string)
    (* some other code calls the exported constructor *)
| On (a : nat) (l : label).
    (* a turn of the event loop on the object at address [a] *)

Definition act (env : Browser) (x : action) (m : Module_state) : Module_state :=
  match x with
  | Get basePath =>
      let '(a, m') := getLibreOfficeConverter basePath m in
      {| heap := heap m'; converterInstance := converterInstance m';
         returned := returned m' ++ [a] |}
  | New basePath =>
      {| heap := heap m ++ [fresh basePath];
         converterInstance := converterInstance m;
         returned := returned m |}
  | On a l =>
      match heap m !! a with
      | Some w => {| heap := <[a := step env l w]> (heap m);
                     converterInstance := converterInstance m;
                     returned := returned m |}
      | None => m
      end
  end.

Definition acts (env : Browser) (xs : list action) (m : Module_state) : Module_state :=
  foldl (fun m x => act env x m) m xs.

(** The module right after it is loaded. *)
Definition loaded : Module_state :=
  {| heap := []; converterInstance := None; returned := [] |}.

End Singleton.

(* ===================================================================== *)
(** * Vocabulary of the properties *)
(* ===================================================================== *)

Import Singleton.

(** ** Calls in flight *)

(** A call is in flight when it is past line 65 of [initialize] and has not
    reached the [finally] block. *)
Definition in_flight (tk : task) : bool :=
  match tk with
  | Suspended (CheckFailed _ _) | Suspended (CheckFetch _ _ _)
  | Suspended (CheckPassed _) | Suspended (Booting _ _) => true
  | _ => false
  end.

Definition flying (ts : list task) : nat := length (List.filter in_flight ts).

(** ** The flags *)

(** Between two turns of the event loop: [initializing] is set exactly while
    one call is in flight, and then [initialized] is not set. *)
Record consistent (w : World) : Prop := {
  one_in_flight :
    flying (tasks w) = if initializing (this (rt w)) then 1 else 0;
  not_both :
    initializing (this (rt w)) = true -> initialized (this (rt w)) = false
}.

(** A callback that sees both flags set is receiving the final
    ready/100 event of line 110. *)
Definition calm (e : event) : Prop :=
  match e with
  | Progress _ p seen =>
      initialized seen = true -> initializing seen = true ->
      phase p = "ready" /\ percent p = 100%Q
  | _ => True
  end.

(** A turn of the event loop that belongs to [destroy]: the call itself, or
    the continuation of a call waiting at line 245. *)
Definition destroy_turn (w : World) (l : label) : Prop :=
  l = Call Destroy \/
  exists t s, l = Resume t s /\ tasks w !! t = Some (Suspended Destroying).

(** ** Scenarios *)

(** A cross-origin isolated page with [SharedArrayBuffer]. *)
Definition isolated : Browser :=
  {| crossOriginIsolated := true; hasSharedArrayBuffer := true |}.

(** A promise that resolves with [undefined]: a timer, the engine's
    [initialize()] or [destroy()], or the continuation of an inner call. *)
Definition tick : settled := Fulfilled VUndefined.

(** A HEAD request answered with the given status. *)
Definition answered (st : N) : settled :=
  Fulfilled (VResponse {| status := st; statusText := "" |}).

(** The first call on a fresh object is task 0; here it gets as far as the
    engine's boot: five assets answered 200, then the engine is built. *)
Definition until_boot (cb : option ProgressCallback) : list label :=
  Call (Initialize cb) :: replicate 5 (Resume 0 (answered 200)) ++ [Resume 0 tick].

(** The same, and the engine's boot succeeds. *)
Definition booted (cb : option ProgressCallback) : list label :=
  until_boot cb ++ [Resume 0 tick].

(** What a failing engine rejects its boot with. *)
Definition boot_failure : thrown := Other "boot failed".

(** As [booted], but the engine's boot fails. *)
Definition boot_failed (cb : option ProgressCallback) : list label :=
  until_boot cb ++ [Resume 0 (Rejected boot_failure)].

(** ** A failed initialization *)

(** The continuations of [initialize]. *)
Definition of_initialize (k : cont) : bool :=
  match k with
  | PollSleep | CheckFailed _ _ | CheckFetch _ _ _ | CheckPassed _ | Booting _ _ => true
  | _ => false
  end.

(** The error a suspended call of [initialize] fails with when it is resumed
    with [s]: the error [checkEnvironment] has thrown (the environment check
    or an asset check failed), or the error the engine's boot is rejected
    with.  [None] when the call does not fail at this point. *)
Definition failure (k : cont) (s : settled) : option thrown :=
  match k, s with
  | CheckFailed _ e, Fulfilled VUndefined => Some e
  | Booting _ _, Rejected e => Some e
  | _, _ => None
  end.

(** ** The environment check comes before any request *)

(** The URLs of the HEAD requests seen so far. *)
Definition fetched (lg : list event) : list string :=
  omap (fun e => match e with FetchHead url => Some url | _ => None end) lg.

(** The engines built so far. *)
Definition built (lg : list event) : list handle :=
  omap (fun e => match e with EngineNew h _ => Some h | _ => None end) lg.

(** [checkEnvironment] refuses the browser. *)
Definition lacking (env : Browser) : bool :=
  negb (crossOriginIsolated env) || negb (hasSharedArrayBuffer env).

(** A call that has passed the environment check. *)
Definition past_check (tk : task) : bool :=
  match tk with
  | Suspended (CheckFetch _ _ _) | Suspended (CheckPassed _) | Suspended (Booting _ _) => true
  | _ => false
  end.

Record stuck (w : World) : Prop := {
  never_initialized : initialized (this (rt w)) = false;
  nothing_fetched : fetched (log (rt w)) = [];
  nothing_built : built (log (rt w)) = [];
  none_past_check : Forall (fun tk => past_check tk = false) (tasks w)
}.

(** ** A required asset that cannot be fetched *)

(** [s.includes(sub)] *)
Fixpoint includes (s sub : string) : bool :=
  String.prefix sub s ||
  match s with
  | EmptyString => false
  | String _ s' => includes s' sub
  end.

(** The error [checkEnvironment] ends with when the request for [file]
    settles with [s]; [None] when [s] is a success. *)
Definition asset_failure (file : string) (s : settled) : option thrown :=
  match s with
  | Fulfilled (VResponse res) =>
      if ok res then None else Some (asset_status_error file res)
  | Rejected e => Some (catch_asset file e)
  | Fulfilled _ => None
  end.

(** What was observed of a failed request: the status, or the error as
    text. *)
Definition observed (s : settled) : string :=
  match s with
  | Fulfilled (VResponse res) => pretty (status res)
  | Rejected e => to_string e
  | Fulfilled _ => ""
  end.

(** The rejection is an [Error] whose message starts with "Required file":
    the [catch] block of line 181 passes it on as it is. *)
Definition passed_on (s : settled) : bool :=
  match s with
  | Rejected e => instanceof_Error e && startsWith (Js.message e) "Required file"
  | Fulfilled _ => false
  end.

(** ** The input format *)

(** The part of a file name after its last dot; [None] when the name has no
    dot. *)
Fixpoint after_last_dot (s : string) : option string :=
  match s with
  | EmptyString => None
  | String c s' =>
      match after_last_dot s' with
      | Some e => Some e
      | None => if Ascii.eqb c "."%char then Some s' else None
      end
  end.

(** The input format as the specification words it: the extension (the part
    after the last dot) lower-cased, and the empty string when the name has no
    extension. *)
Definition extension_spec (file_name : string) : string :=
  match after_last_dot file_name with
  | Some e => toLowerCase e
  | None => ""
  end.

(** ** Concurrent calls of initialize *)

(** What can happen once the calls are made, when nobody calls the converter
    again: a promise settles, or an engine reports progress. *)
Inductive turn :=
| Settle (t : nat) (s : settled)
| Report (h : handle) (info : ProgressInfo).

Definition label_of (x : turn) : label :=
  match x with
  | Settle t s => Resume t s
  | Report h info => EngineProgress h info
  end.

(** [initialize] is called once for each element of [cbs], all before the
    first of the calls is resumed; then the turns [after] follow. *)
Definition concurrent_initialize (cbs : list (option ProgressCallback))
    (after : list turn) : list label :=
  map (fun cb => Call (Initialize cb)) cbs ++ map label_of after.

(** How often the engine's boot procedure was started. *)
Definition boots (lg : list event) : nat :=
  length (omap (fun e => match e with EngineInitialize h => Some h | _ => None end) lg).

(** A caller that found [initializing] set: it polls, or has returned. *)
Definition waiter (tk : task) : Prop :=
  tk = Suspended PollSleep \/ tk = Done Returned.

(** The first caller, with the number of boots [b] and the value [g] of
    [initializing] that go with its state, and what the other callers can be
    doing meanwhile: as long as the first caller is in flight they all
    poll. *)
Definition leader (tk : task) (b : nat) (g : bool) (rest : list task) : Prop :=
  match tk with
  | Suspended (CheckFailed _ _) | Suspended (CheckFetch _ _ _)
  | Suspended (CheckPassed _) =>
      b = 0 /\ g = true /\ Forall (fun tk' => tk' = Suspended PollSleep) rest
  | Suspended (Booting _ _) =>
      b = 1 /\ g = true /\ Forall (fun tk' => tk' = Suspended PollSleep) rest
  | Done Returned => b = 1 /\ g = false /\ Forall waiter rest
  | Done (Threw _) => b <= 1 /\ g = false /\ Forall waiter rest
  | _ => False
  end.

Definition one_boot (w : World) : Prop :=
  match tasks w with
  | [] => boots (log (rt w)) = 0
  | tk :: rest => leader tk (boots (log (rt w))) (initializing (this (rt w))) rest
  end.

(** The check of the first caller has failed with [e], and no boot was
    started. *)
Definition check_lost (cb : option ProgressCallback) (e : thrown) (w : World) : Prop :=
  boots (log (rt w)) = 0 /\
  match tasks w with
  | tk :: rest =>
      (tk = Suspended (CheckFailed cb e) \/ tk = Done (Threw e)) /\ Forall waiter rest
  | [] => False
  end.

(** ** What the progress callback receives *)

(** The progress values delivered to callback [cb], in order. *)
Definition received (cb : ProgressCallback) (lg : list event) : list LoadProgress :=
  omap (fun e => match e with
                 | Progress f p _ => if decide (f = cb) then Some p else None
                 | _ => None
                 end) lg.

(** An engine event as [onProgress] hands it to the callback (lines 85-90). *)
Definition forwarded (info : ProgressInfo) : LoadProgress :=
  {| phase := info_phase info;
     percent := info_percent info;
     message := "Loading conversion engine ("
                +:+ pretty (Math_round (info_percent info)) +:+ "%)..." |}.

(** The three events [initialize] itself sends (lines 69, 74, 110). *)
Definition checking : LoadProgress :=
  {| phase := "loading"; percent := 0; message := "Checking environment..." |}.
Definition loading : LoadProgress :=
  {| phase := "loading"; percent := 5; message := "Loading conversion engine..." |}.
Definition ready : LoadProgress :=
  {| phase := "ready"; percent := 100; message := "Conversion engine ready!" |}.

Fixpoint nondecreasing (qs : list Q) : Prop :=
  match qs with
  | x :: (y :: _) as rest => (x <= y)%Q /\ nondecreasing rest
  | _ => True
  end.

(** Any turn but a call of [initialize]. *)
Definition no_initialize (l : label) : Prop :=
  match l with Call (Initialize _) => False | _ => True end.

(** What a progress value shows of the initialization: its phase and its
    percentage. *)
Definition shown (p : LoadProgress) : string * Q := (phase p, percent p).

(** The same of an event of the engine. *)
Definition reported (info : ProgressInfo) : string * Q :=
  (info_phase info, info_percent info).

(** No engine holds the callback [cb] and no call is in flight: nothing but
    a new [initialize] reaches [cb] again. *)
Record silent (cb : ProgressCallback) (w : World) : Prop := {
  callback_dropped :
    Forall (fun e => progressCallback e <> Some cb) (engines (rt w));
  nothing_in_flight : Forall (fun tk => in_flight tk = false) (tasks w)
}.

(** ** The singleton *)

(** The argument of the first call of the accessor in a list of actions. *)
Fixpoint first_get (xs : list action) : option (option string) :=
  match xs with
  | [] => None
  | Get basePath :: _ => Some basePath
  | _ :: xs => first_get xs
  end.

(** Before the first call of the accessor: no instance, nothing returned. *)
Definition unset (m : Module_state) : Prop :=
  converterInstance m = None /\ returned m = [].

(** After it: the module variable holds address [a], every call returned
    [a], and the object at [a] has base path [p]. *)
Definition pinned (a : nat) (p : string) (m : Module_state) : Prop :=
  converterInstance m = Some a /\
  Forall (fun r => r = a) (returned m) /\
  exists w, heap m !! a = Some w /\ basePath (this (rt w)) = p.

(** ** Further properties *)

(** The URLs the engine is given, in the order [checkEnvironment] checks
    the files they point to. *)
Definition option_urls (o : EngineOptions) : list string :=
  [ sofficeWasm o; sofficeData o; sofficeJs o; sofficeWorkerJs o; browserWorkerJs o ].

(** The asset requests a call of [initialize] has issued for itself and not
    yet turned into an engine. *)
Definition checked (tk : task) : nat :=
  match tk with
  | Suspended (CheckFetch _ _ rest) => length files - length rest
  | Suspended (CheckPassed _) => length files
  | _ => 0
  end.

Definition checks (ts : list task) : nat := sum_list_with checked ts.

(** Every engine is paid for with five requests, and a call on its way to
    an engine has issued the requests [checked] counts. *)
Definition paid (w : World) : Prop :=
  length files * length (built (log (rt w))) + checks (tasks w)
  <= length (fetched (log (rt w))).

(** The engine an event is about. *)
Definition engine_of (e : event) : option handle :=
  match e with
  | EngineNew h _ | EngineInitialize h | EngineConvert h _ _ _ _ | EngineDestroy h => Some h
  | _ => None
  end.

(** The engines the log speaks of exist, in the order they were built, and
    the handle of the converter is the engine built last. *)
Record tidy (w : World) : Prop := {
  built_in_order : built (log (rt w)) = seq 0 (length (engines (rt w)));
  handle_is_latest :
    forall h, converter (this (rt w)) = Some h -> S h = length (engines (rt w));
  engines_are_built :
    Forall (fun e => match engine_of e with
                     | Some h => h < length (engines (rt w))
                     | None => True
                     end) (log (rt w))
}.

(** The continuations of [convert]. *)
Definition of_convert (k : cont) : bool :=
  match k with
  | ReadingFile _ _ | Converting _ => true
  | _ => false
  end.

(** The callback a call of [initialize] carries while it is in flight. *)
Definition carried (tk : task) : option (option ProgressCallback) :=
  match tk with
  | Suspended (CheckFailed cb _) | Suspended (CheckFetch cb _ _)
  | Suspended (CheckPassed cb) | Suspended (Booting cb _) => Some cb
  | _ => None
  end.

(** The callback a progress event was delivered to. *)
Definition hearer (e : event) : option ProgressCallback :=
  match e with
  | Progress f _ _ => Some f
  | _ => None
  end.

(** Progress reaches nobody but [cb0]: the log, the callbacks the engines
    hold, and the callbacks the calls in flight carry. *)
Definition only_hears (cb0 : option ProgressCallback) (w : World) : Prop :=
  Forall (fun e => match hearer e with Some f => cb0 = Some f | None => True end)
    (log (rt w)) /\
  Forall (fun e => progressCallback e = None \/ progressCallback e = cb0)
    (engines (rt w)) /\
  Forall (fun tk => match carried tk with Some cb => cb = cb0 | None => True end)
    (tasks w).

(** A base path and the five URLs under it. *)
Definition asset_urls (base : string) : list string := map (asset_url base) files.

(** Requests go to the five assets under [base] only, and the asset loop
    only has files of the [files] array left to check. *)
Definition on_list (base : string) (w : World) : Prop :=
  basePath (this (rt w)) = base /\
  Forall (fun url => In url (asset_urls base)) (fetched (log (rt w))) /\
  Forall (fun tk => match tk with
                    | Suspended (CheckFetch _ _ rest) => Forall (fun f => In f files) rest
                    | _ => True
                    end) (tasks w).

(** How often an engine was asked to shut down. *)
Definition shutdowns (lg : list event) : nat :=
  length (omap (fun e => match e with EngineDestroy h => Some h | _ => None end) lg).

(** How often engine [h] was asked to shut down. *)
Definition shutdowns_of (h : handle) (lg : list event) : nat :=
  length (omap (fun e => match e with
                         | EngineDestroy h' => if decide (h' = h) then Some h' else None
                         | _ => None
                         end) lg).

(** Any turn but a call of [destroy]. *)
Definition no_destroy (l : label) : Prop :=
  match l with Call Destroy => False | _ => True end.

(** No upper-case ASCII letter, no dot. *)
Definition is_upper (c : ascii) : bool :=
  let n := Ascii.nat_of_ascii c in (65 <=? n)%nat && (n <=? 90)%nat.

Fixpoint has_upper (s : string) : bool :=
  match s with
  | EmptyString => false
  | String c s' => is_upper c || has_upper s'
  end.

Fixpoint has_dot (s : string) : bool :=
  match s with
  | EmptyString => false
  | String c s' => Ascii.eqb c "."%char || has_dot s'
  end.

(* ===================================================================== *)
(** * Basic facts about runs *)
(* ===================================================================== *)

Lemma run_app env ls1 ls2 w :
  run env (ls1 ++ ls2) w = run env ls2 (run env ls1 w).
Proof. unfold run. apply foldl_app. Qed.

Lemma run_snoc env ls l w :
  run env (ls ++ [l]) w = step env l (run env ls w).
Proof. by rewrite run_app. Qed.

Lemma run_cons env l ls w :
  run env (l :: ls) w = run env ls (step env l w).
Proof. reflexivity. Qed.

(** A property that holds of a fresh object and is kept by every turn of the
    event loop holds in every reachable world. *)
Lemma reachable_ind env (P : World -> Prop) :
  (forall basePath, P (fresh basePath)) ->
  (forall l w, P w -> P (step env l w)) ->
  forall w, reachable env w -> P w.
Proof.
  intros Hfresh Hstep w (bp & ls & ->).
  induction ls as [|l ls IH] using rev_ind.
  - apply Hfresh.
  - rewrite run_snoc. by apply Hstep.
Qed.

Lemma reachable_run env ls w : reachable env w -> reachable env (run env ls w).
Proof.
  intros (bp & ls0 & ->). exists bp, (ls0 ++ ls). by rewrite run_app.
Qed.

Lemma reachable_fresh env basePath : reachable env (fresh basePath).
Proof. by exists basePath, []. Qed.

(** A turn of the event loop moves at most the call it resumes: every
    other call is where it was. *)
Lemma step_task env l w t tk :
  tasks w !! t = Some tk ->
  tasks (step env l w) !! t = Some tk \/
  exists k s r tk',
    tk = Suspended k /\ l = Resume t s /\ resume k s (rt w) = Some (r, tk') /\
    tasks (step env l w) !! t = Some tk'.
Proof.
  intros Hl. destruct l as [o|t' s|h info]; simpl.
  - left. destruct (call env o (rt w)) as [r tk0]. simpl. by apply lookup_app_l_Some.
  - destruct (tasks w !! t') as [[k|o]|] eqn:Hl'; try by left.
    destruct (resume k s (rt w)) as [[r tk']|] eqn:E; [|by left].
    simpl. destruct (decide (t = t')) as [->|Hne].
    + right. exists k, s, r, tk'. simplify_eq.
      split; [done|]. split; [done|]. split; [done|].
      apply list_lookup_insert_eq. by eapply lookup_lt_Some.
    + left. by rewrite list_lookup_insert_ne.
  - by left.
Qed.

(** A call whose environment or asset check has failed ends with the error
    of the check, whatever else happens. *)
Lemma failed_check_stays env cb e t ls : forall w,
  tasks w !! t = Some (Suspended (CheckFailed cb e)) \/
  tasks w !! t = Some (Done (Threw e)) ->
  tasks (run env ls w) !! t = Some (Suspended (CheckFailed cb e)) \/
  tasks (run env ls w) !! t = Some (Done (Threw e)).
Proof.
  induction ls as [|l ls IH]; intros w H; [done|].
  rewrite run_cons. apply IH. clear IH.
  destruct H as [H|H];
    destruct (step_task env l w t _ H) as [H'|(k & s & r & tk' & Hk & -> & E & H')];
    auto; simplify_eq.
  simpl in E. unfold check_failed in E. destruct s as [[]|]; simplify_eq. auto.
Qed.

(** A call that found an initialization in flight polls until it returns;
    it never fails. *)
Lemma poller_stays env t ls : forall w,
  tasks w !! t = Some (Suspended PollSleep) \/ tasks w !! t = Some (Done Returned) ->
  tasks (run env ls w) !! t = Some (Suspended PollSleep) \/
  tasks (run env ls w) !! t = Some (Done Returned).
Proof.
  induction ls as [|l ls IH]; intros w H; [done|].
  rewrite run_cons. apply IH. clear IH.
  destruct H as [H|H];
    destruct (step_task env l w t _ H) as [H'|(k & s & r & tk' & Hk & -> & E & H')];
    auto; simplify_eq.
  simpl in E. destruct s as [[]|]; simplify_eq.
  unfold poll_answer in E. destruct (initializing (this (rt w))); simplify_eq; auto.
Qed.

(** ** Calls that are running the body of [initialize] *)

Lemma flying_app ts1 ts2 : flying (ts1 ++ ts2) = flying ts1 + flying ts2.
Proof. unfold flying. by rewrite List.filter_app, length_app. Qed.

Lemma flying_cons tk ts :
  flying (tk :: ts) = (if in_flight tk then 1 else 0) + flying ts.
Proof. unfold flying. simpl. by destruct (in_flight tk). Qed.

Lemma flying_insert ts t old new :
  ts !! t = Some old ->
  flying (<[t := new]> ts) + (if in_flight old then 1 else 0)
  = flying ts + (if in_flight new then 1 else 0).
Proof.
  intros Hl.
  assert (t < length ts) as Hlt by (by eapply lookup_lt_Some).
  rewrite insert_take_drop by done.
  pose proof (f_equal flying (take_drop_middle ts t old Hl)) as E.
  rewrite flying_app, flying_cons in E.
  rewrite flying_app, flying_cons. lia.
Qed.

Lemma flying_lookup ts t tk :
  ts !! t = Some tk -> in_flight tk = true -> 1 <= flying ts.
Proof.
  intros Hl Hf. rewrite <- (take_drop_middle ts t tk Hl), flying_app, flying_cons, Hf.
  lia.
Qed.

(** No turn of the event loop changes [basePath]. *)

Ltac step_cases :=
  repeat match goal with
    | |- context [match ?x with _ => _ end] => destruct x eqn:?; simpl in *
    | H : Some _ = Some _ |- _ => injection H as <- <-
    | H : (_, _) = (_, _) |- _ => injection H as <- <-
    | H : Some _ = None |- _ => discriminate H
    | H : None = Some _ |- _ => discriminate H
    end.

Lemma call_basePath env o r :
  basePath (this (fst (call env o r))) = basePath (this r).
Proof.
  destruct o; simpl.
  - unfold initialize, checkEnvironment, notify. step_cases; done.
  - unfold convert. step_cases; done.
  - unfold destroy. step_cases; done.
Qed.

Lemma resume_basePath k s r r' tk :
  resume k s r = Some (r', tk) -> basePath (this r') = basePath (this r).
Proof.
  destruct k; simpl;
    unfold asset_answer, boot_answer, buffer_answer, convert_answer, destroy_answer,
      poll_answer, check_failed, start_engine, clear_progressCallback, notify, next_asset;
    intros H; revert H; step_cases; intros H; simplify_eq; done.
Qed.

Lemma onProgress_this h info r : this (onProgress h info r) = this r.
Proof. unfold onProgress. step_cases; done. Qed.

Lemma step_basePath env l w :
  basePath (this (rt (step env l w))) = basePath (this (rt w)).
Proof.
  destruct l as [o|t s|h info]; simpl.
  - pose proof (call_basePath env o (rt w)) as H.
    destruct (call env o (rt w)); done.
  - destruct (tasks w !! t) as [[k|]|]; try done.
    destruct (resume k s (rt w)) as [[r tk]|] eqn:E; try done.
    simpl. by eapply resume_basePath.
  - by rewrite onProgress_this.
Qed.

(* ===================================================================== *)
(** * The flags of a reachable converter *)
(* ===================================================================== *)

Lemma fresh_consistent basePath : consistent (fresh basePath).
Proof. by split. Qed.

Lemma notify_this cb p r : this (notify cb p r) = this r.
Proof. by destruct cb. Qed.

Ltac flags :=
  simpl in *; simplify_eq;
  split; simpl in *; rewrite ?flying_app, ?flying_cons, ?notify_this; simpl in *;
  repeat match goal with b : bool |- _ => destruct b end;
  simpl in *; try done; try lia; try naive_solver.

Lemma call_consistent env o w :
  consistent w -> consistent (step env (Call o) w).
Proof.
  destruct w as [[[c d g b] es lg] ts]. intros [Hfly Hex]. simpl in *.
  assert (flying [] = 0) as Hnil by done.
  destruct o as [cb|file fmt|]; simpl.
  - unfold initialize. simpl.
    destruct d eqn:Hd; [flags|].
    destruct g eqn:Hg; [flags|].
    unfold checkEnvironment.
    destruct (negb (crossOriginIsolated env) || negb (hasSharedArrayBuffer env));
      flags.
  - unfold convert. simpl. destruct c; flags.
  - unfold destroy. simpl. destruct c; flags.
Qed.

Lemma resume_consistent env t s w :
  consistent w -> consistent (step env (Resume t s) w).
Proof.
  destruct w as [[[c d g b] es lg] ts]. intros [Hfly Hex]. simpl in *.
  destruct (ts !! t) as [[k|]|] eqn:Hl; try by split.
  destruct (resume k s _) as [[r tk]|] eqn:E; [|by split].
  pose proof (flying_insert _ _ _ tk Hl) as Hins.
  assert (in_flight (Suspended k) = true -> g = true) as Hon.
  { intros Hk. pose proof (flying_lookup _ _ _ Hl Hk). destruct g; [done | lia]. }
  destruct k; simpl in E, Hins, Hon.
  - (* PollSleep *)
    destruct s as [[]|]; try done. unfold poll_answer in E. simpl in E.
    destruct g eqn:Hg; simplify_eq; flags.
  - (* CheckFailed *)
    destruct s as [[]|]; try done. unfold check_failed in E. simplify_eq.
    rewrite Hon in * by done. flags.
  - (* CheckFetch *)
    unfold asset_answer in E.
    destruct s as [[| res | |]|]; try done.
    + destruct (ok res); [destruct rest|]; simplify_eq; flags.
    + simplify_eq. flags.
  - (* CheckPassed *)
    destruct s as [[]|]; try done. unfold start_engine in E. simplify_eq.
    flags.
  - (* Booting *)
    unfold boot_answer in E. rewrite Hon in * by done.
    destruct s; simplify_eq; flags.
  - (* ReadingFile *)
    unfold buffer_answer in E. simpl in E.
    destruct s as [[| | bytes |]|]; try done;
      [destruct c|]; simplify_eq; flags.
  - (* Converting *)
    unfold convert_answer in E.
    destruct s as [[| | | res]|]; try done; simplify_eq; flags.
  - (* Destroying *)
    unfold destroy_answer in E.
    destruct s; simplify_eq; flags.
Qed.

Lemma step_consistent env l w : consistent w -> consistent (step env l w).
Proof.
  destruct l as [o|t s|h info].
  - apply call_consistent.
  - apply resume_consistent.
  - intros [Hfly Hex]. split; simpl; by rewrite onProgress_this.
Qed.

Lemma reachable_consistent env w : reachable env w -> consistent w.
Proof.
  apply reachable_ind; [apply fresh_consistent | intros; by apply step_consistent].
Qed.

(** ** What a progress callback can see *)

Lemma Forall_snoc {A} (P : A -> Prop) l x : Forall P l -> P x -> Forall P (l ++ [x]).
Proof. intros. apply Forall_app. by split; [|constructor]. Qed.

Ltac calm_tac :=
  simpl in *; simplify_eq; simpl in *;
  repeat match goal with
    | |- Forall calm (_ ++ [_]) => apply Forall_snoc
    | |- context [match ?x with _ => _ end] =>
        lazymatch x with
        | context [match _ with _ => _ end] => fail
        | _ => destruct x eqn:?; simpl in *; simplify_eq
        end
    end;
  simpl in *; try done; try naive_solver.

Lemma step_calm env l w :
  consistent w -> Forall calm (log (rt w)) -> Forall calm (log (rt (step env l w))).
Proof.
  destruct w as [[[c d g b] es lg] ts]. intros [Hfly Hex] Hlog. simpl in *.
  destruct l as [[cb|file fmt|]|t s|h info].
  - simpl. unfold initialize, checkEnvironment, notify. calm_tac.
  - simpl. unfold convert. calm_tac.
  - simpl. unfold destroy. calm_tac.
  - simpl. destruct (ts !! t) as [[k|]|] eqn:Hl; try done.
    destruct (resume k s _) as [[r tk]|] eqn:E; [|done].
    assert (in_flight (Suspended k) = true -> g = true /\ d = false) as Hon.
    { intros Hk. pose proof (flying_lookup _ _ _ Hl Hk).
      destruct g; [split; auto | lia]. }
    simpl.
    destruct (in_flight (Suspended k)) eqn:Hk;
      [destruct Hon as [-> ->]; [done|] | clear Hon];
      destruct k; simpl in E, Hk; try done;
      unfold poll_answer, check_failed, asset_answer, start_engine, boot_answer,
        buffer_answer, convert_answer, destroy_answer, clear_progressCallback,
        next_asset, notify in E;
      revert E; calm_tac; intros E; calm_tac.
  - simpl. unfold onProgress. calm_tac.
Qed.

Lemma reachable_calm env w : reachable env w -> Forall calm (log (rt w)).
Proof.
  intros Hr. cut (consistent w /\ Forall calm (log (rt w))); [tauto|].
  revert w Hr. apply reachable_ind.
  - intros bp. split; [apply fresh_consistent | constructor].
  - intros l w [Hc Hl]. split; [by apply step_consistent | by apply step_calm].
Qed.

(** ** Who clears [initialized] *)

Lemma only_destroy_clears env l w :
  initialized (this (rt w)) = true ->
  initialized (this (rt (step env l w))) = false ->
  destroy_turn w l.
Proof.
  destruct w as [[[c d g b] es lg] ts]. simpl. intros ->.
  destruct l as [[cb|file fmt|]|t s|h info]; simpl.
  - done.
  - unfold convert. simpl. by destruct c.
  - by left.
  - destruct (ts !! t) as [[k|]|] eqn:Hl; try done.
    destruct (resume k s _) as [[r tk]|] eqn:E; [|done].
    simpl. intros Hr. right. exists t, s. split; [done|].
    destruct k; try done; exfalso; simpl in E;
      unfold poll_answer, check_failed, asset_answer, start_engine, boot_answer,
        buffer_answer, convert_answer, destroy_answer, clear_progressCallback,
        next_asset, notify in E;
      revert E; calm_tac; intros E; calm_tac.
  - by rewrite onProgress_this.
Qed.

(* ===================================================================== *)
(** * C4: the two flags *)
(* ===================================================================== *)

(** C4, as stated, fails: the final ready/100 event of a successful
    initialization is delivered after [this.initialized = true] (line 107)
    and before the [finally] block clears [initializing] (line 115), so the
    callback runs while both flags are set. *)
Lemma ready_callback_sees_both_flags :
  exists cb p seen,
    In (Progress cb p seen) (log (rt (run isolated (booted (Some 7)) (fresh None)))) /\
    initialized seen = true /\ initializing seen = true.
Proof.
  exists 7,
    {| phase := "ready"; percent := 100; message := "Conversion engine ready!" |},
    {| converter := Some 0; initialized := true; initializing := true;
       basePath := LIBREOFFICE_PATH |}.
  split; [|done]. vm_compute. tauto.
Qed.

(** C4 (amended): for every sequence of turns of the event loop on a
    converter object, (a) between turns the flags [initialized] and
    [initializing] are never both set; (b) a progress callback that does see
    both set is receiving the final event, of phase ready and percent 100;
    (c) a turn that finds [initialized] set and leaves it cleared is a turn of
    [destroy]. *)
Theorem flags_exclusive_between_turns env basePath ls :
  let w := run env ls (fresh basePath) in
  ~ (initialized (this (rt w)) = true /\ initializing (this (rt w)) = true) /\
  (forall cb p seen,
      In (Progress cb p seen) (log (rt w)) ->
      initialized seen = true -> initializing seen = true ->
      phase p = "ready" /\ percent p = 100%Q) /\
  (forall l,
      initialized (this (rt w)) = true ->
      initialized (this (rt (step env l w))) = false ->
      destroy_turn w l).
Proof.
  intros w. assert (reachable env w) as Hr by (by exists basePath, ls).
  split; [|split].
  - intros [Hd Hg]. apply reachable_consistent in Hr as [_ Hex].
    rewrite (Hex Hg) in Hd. done.
  - intros cb p seen Hin. apply reachable_calm in Hr.
    rewrite Forall_forall in Hr. apply list_elem_of_In in Hin.
    apply (Hr _ Hin).
  - intros l. apply only_destroy_clears.
Qed.

(* ===================================================================== *)
(** * C2: a failed initialization *)
(* ===================================================================== *)

(** With both flags clear, [initialize] runs its body: it sets
    [initializing] and is in flight when it first suspends. *)
Lemma initialize_fresh_cycle env cb w :
  initialized (this (rt w)) = false ->
  initializing (this (rt w)) = false ->
  let w' := step env (Call (Initialize cb)) w in
  initializing (this (rt w')) = true /\
  exists tk, tasks w' !! length (tasks w) = Some tk /\ in_flight tk = true.
Proof.
  destruct w as [[[c d g b] es lg] ts]. simpl. intros -> ->.
  unfold initialize, checkEnvironment. simpl.
  destruct (negb (crossOriginIsolated env) || negb (hasSharedArrayBuffer env)); simpl;
    rewrite notify_this; (split; [done|]); eexists;
    (split; [apply list_lookup_middle; done | done]).
Qed.

(** A call of [initialize] ends in an error only at the points [failure]
    names, and the error leaves through the [finally] block. *)
Lemma initialize_threw k s r r' e :
  of_initialize k = true ->
  resume k s r = Some (r', Done (Threw e)) ->
  failure k s = Some e /\
  in_flight (Suspended k) = true /\
  initializing (this r') = false /\
  initialized (this r') = initialized (this r) /\
  converter (this r') = converter (this r).
Proof.
  destruct r as [[c d g b] es lg].
  destruct k; try done; simpl;
    unfold poll_answer, check_failed, asset_answer, start_engine, boot_answer, next_asset;
    intros _ E; revert E; calm_tac; intros E; calm_tac.
Qed.

Lemma failure_threw k s r e :
  failure k s = Some e ->
  of_initialize k = true /\
  resume k s r = Some (finally_initialize r, Done (Threw e)).
Proof.
  destruct k; try done; destruct s as [[]|]; try done; simpl; by intros [= ->].
Qed.

(** How a call gets to wait with an error of [checkEnvironment]. *)
Lemma environment_check_fails env cb r :
  lacking env = true ->
  checkEnvironment env cb r
  = (r, Suspended (CheckFailed cb (environment_error (crossOriginIsolated env)))).
Proof. unfold lacking, checkEnvironment. by intros ->. Qed.

Lemma asset_check_fails cb file rest s r err :
  asset_failure file s = Some err ->
  asset_answer cb file rest s r = Some (r, Suspended (CheckFailed cb err)).
Proof.
  unfold asset_failure, asset_answer.
  destruct s as [[| res | |]|e]; try done.
  - destruct (ok res); [done|]. intros [= <-]. unfold catch_asset. done.
  - by intros [= <-].
Qed.

(** C2: in every reachable world, when a suspended call of [initialize]
    fails (it is resumed after the environment check or an asset check threw,
    or the engine's boot is rejected), the call ends with that error and the
    converter is left uninitialized: [initializing] and [initialized] are
    clear and [isReady()] is false; and any later [initialize] starts a new
    cycle (it sets [initializing] again and is in flight). *)
Theorem failed_initialize_resets env w t k s e :
  reachable env w ->
  tasks w !! t = Some (Suspended k) ->
  failure k s = Some e ->
  let w' := step env (Resume t s) w in
  tasks w' !! t = Some (Done (Threw e)) /\
  initializing (this (rt w')) = false /\
  initialized (this (rt w')) = false /\
  isReady (this (rt w')) = false /\
  forall cb,
    let w'' := step env (Call (Initialize cb)) w' in
    initializing (this (rt w'')) = true /\
    exists tk, tasks w'' !! length (tasks w') = Some tk /\ in_flight tk = true.
Proof.
  intros Hr Hl Hfail w'.
  pose proof (reachable_consistent _ _ Hr) as [Hfly Hex].
  assert (t < length (tasks w)) as Hlt by (by eapply lookup_lt_Some).
  destruct (failure_threw k s (rt w) e Hfail) as [Hk E].
  destruct (initialize_threw _ _ _ _ _ Hk E) as (_ & Hf & Hg & Hd & _).
  pose proof (flying_lookup _ _ _ Hl Hf) as Hone.
  assert (initialized (this (finally_initialize (rt w))) = false) as Hd'.
  { rewrite Hd. apply Hex. destruct (initializing (this (rt w))); [done | lia]. }
  assert (w' = {| rt := finally_initialize (rt w);
                  tasks := <[t := Done (Threw e)]> (tasks w) |}) as ->.
  { subst w'. unfold step. by rewrite Hl, E. }
  split; [by apply list_lookup_insert_eq|].
  split; [done|]. split; [done|]. split.
  { unfold isReady. cbn [rt]. by rewrite Hd'. }
  intros cb. by apply initialize_fresh_cycle.
Qed.

(** The theorem at work: the engine's boot fails on a fresh converter. *)
Lemma failed_initialize_resets_witness :
  let w := run isolated (until_boot None) (fresh None) in
  let w' := step isolated (Resume 0 (Rejected boot_failure)) w in
  tasks w' !! 0 = Some (Done (Threw boot_failure)) /\
  initializing (this (rt w')) = false /\
  initialized (this (rt w')) = false /\
  isReady (this (rt w')) = false /\
  forall cb,
    let w'' := step isolated (Call (Initialize cb)) w' in
    initializing (this (rt w'')) = true /\
    exists tk, tasks w'' !! length (tasks w') = Some tk /\ in_flight tk = true.
Proof.
  apply (failed_initialize_resets isolated
           (run isolated (until_boot None) (fresh None)) 0 (Booting None 0)
           (Rejected boot_failure) boot_failure).
  - apply reachable_run, reachable_fresh.
  - reflexivity.
  - reflexivity.
Defined.

(* ===================================================================== *)
(** * C7: the environment check comes before any request *)
(* ===================================================================== *)

Lemma fetched_snoc lg e :
  fetched (lg ++ [e]) =
  fetched lg ++ match e with FetchHead url => [url] | _ => [] end.
Proof. unfold fetched. rewrite omap_app. by destruct e. Qed.

Lemma built_snoc lg e :
  built (lg ++ [e]) = built lg ++ match e with EngineNew h _ => [h] | _ => [] end.
Proof. unfold built. rewrite omap_app. by destruct e. Qed.

Ltac cases_tac :=
  simpl in *; simplify_eq; simpl in *;
  repeat match goal with
    | |- context [match ?x with _ => _ end] =>
        lazymatch x with
        | context [match _ with _ => _ end] => fail
        | _ => destruct x eqn:?; simpl in *; simplify_eq
        end
    end.

Ltac stuck_tac :=
  cases_tac;
  split; simpl in *; rewrite ?fetched_snoc, ?built_snoc; simpl;
  rewrite ?app_nil_r; try done;
  try (apply Forall_app; split; [done | by repeat constructor]);
  try (by apply Forall_insert).

Lemma step_stuck env l w : lacking env = true -> stuck w -> stuck (step env l w).
Proof.
  unfold lacking. intros Henv.
  destruct w as [[[c d g b] es lg] ts]. intros [Hd Hf Hb Hts]. simpl in *. subst d.
  destruct l as [[cb|file fmt|]|t s|h info].
  - simpl. unfold initialize, checkEnvironment, notify. rewrite Henv. stuck_tac.
  - simpl. unfold convert. stuck_tac.
  - simpl. unfold destroy. stuck_tac.
  - simpl. destruct (ts !! t) as [[k|]|] eqn:Hl; try done.
    destruct (resume k s _) as [[r tk]|] eqn:E; [|done].
    assert (past_check (Suspended k) = false) as Hk.
    { rewrite Forall_lookup in Hts. by apply (Hts t). }
    destruct k; simpl in E, Hk; try done;
      unfold poll_answer, check_failed, buffer_answer, convert_answer, destroy_answer in E;
      revert E; cases_tac; intros E; stuck_tac.
  - simpl. unfold onProgress. stuck_tac.
Qed.

Lemma reachable_stuck env w : lacking env = true -> reachable env w -> stuck w.
Proof.
  intros Henv. apply reachable_ind; [by split | intros; by apply step_stuck].
Qed.

(** C7, as stated, fails: on a page without [SharedArrayBuffer], a second
    call of [initialize] made while the first is in flight does not run the
    environment check.  It polls, and returns normally once the first call
    has failed. *)
Lemma second_initialize_returns_without_error :
  let env := {| crossOriginIsolated := true; hasSharedArrayBuffer := false |} in
  let w := run env [Call (Initialize None); Call (Initialize None);
                    Resume 0 tick; Resume 1 tick] (fresh None) in
  lacking env = true /\
  tasks w = [Done (Threw (environment_error true)); Done Returned] /\
  fetched (log (rt w)) = [].
Proof. vm_compute. done. Qed.

(** C7 (amended): in a browser that is not cross-origin isolated or has no
    [SharedArrayBuffer], no sequence of turns ever issues an asset request or
    builds an engine.  A call of [initialize] made while no initialization is
    in flight waits with the environment error of line 147 and ends with it
    as soon as it is resumed, whatever else happens in between; a call made
    while an initialization is in flight polls and returns normally, and
    never fails. *)
Theorem environment_error_before_any_fetch env basePath ls cb ls' :
  lacking env = true ->
  let w := run env ls (fresh basePath) in
  let t := length (tasks w) in
  let err := environment_error (crossOriginIsolated env) in
  let w' := run env (Call (Initialize cb) :: ls') w in
  fetched (log (rt w')) = [] /\
  built (log (rt w')) = [] /\
  (initializing (this (rt w)) = false ->
   (tasks w' !! t = Some (Suspended (CheckFailed cb err)) \/
    tasks w' !! t = Some (Done (Threw err))) /\
   tasks (step env (Resume t tick) w') !! t = Some (Done (Threw err))) /\
  (initializing (this (rt w)) = true ->
   tasks w' !! t = Some (Suspended PollSleep) \/
   tasks w' !! t = Some (Done Returned)).
Proof.
  intros Henv w t err w'.
  assert (reachable env w) as Hr by (by exists basePath, ls).
  assert (reachable env w') as Hr' by (by apply reachable_run).
  pose proof (reachable_stuck _ _ Henv Hr) as [Hd _ _ _].
  pose proof (reachable_stuck _ _ Henv Hr') as [_ Hf Hb _].
  split; [done|]. split; [done|].
  subst w'. rewrite run_cons in *.
  set (w0 := step env (Call (Initialize cb)) w) in *.
  split.
  - intros Hg.
    assert (tasks w0 !! t = Some (Suspended (CheckFailed cb err))) as H0.
    { subst w0 t err. simpl. unfold initialize, checkEnvironment.
      rewrite Hd, Hg. fold (lacking env). rewrite Henv. simpl.
      by apply list_lookup_middle. }
    pose proof (failed_check_stays env cb err t ls' w0 (or_introl H0)) as H.
    split; [done|].
    destruct H as [H|H]; simpl; rewrite H; simpl; [|done].
    apply list_lookup_insert_eq. by eapply lookup_lt_Some.
  - intros Hg. apply poller_stays. left.
    subst w0 t. simpl. unfold initialize. rewrite Hd, Hg. simpl.
    by apply list_lookup_middle.
Qed.

(** The theorem at work: a page without [SharedArrayBuffer]; a conversion is
    attempted while the call waits. *)
Lemma environment_error_before_any_fetch_witness :
  let env := {| crossOriginIsolated := true; hasSharedArrayBuffer := false |} in
  let w := run env [] (fresh None) in
  let t := length (tasks w) in
  let err := environment_error (crossOriginIsolated env) in
  let w' := run env (Call (Initialize (Some 1))
                     :: [Call (Convert {| name := "a.odt"; type := ""; size := 0 |} "pdf")]) w in
  fetched (log (rt w')) = [] /\
  built (log (rt w')) = [] /\
  (initializing (this (rt w)) = false ->
   (tasks w' !! t = Some (Suspended (CheckFailed (Some 1) err)) \/
    tasks w' !! t = Some (Done (Threw err))) /\
   tasks (step env (Resume t tick) w') !! t = Some (Done (Threw err))) /\
  (initializing (this (rt w)) = true ->
   tasks w' !! t = Some (Suspended PollSleep) \/
   tasks w' !! t = Some (Done Returned)).
Proof.
  apply (environment_error_before_any_fetch
           {| crossOriginIsolated := true; hasSharedArrayBuffer := false |}
           None [] (Some 1)
           [Call (Convert {| name := "a.odt"; type := ""; size := 0 |} "pdf")]).
  reflexivity.
Defined.

(* ===================================================================== *)
(** * C8: a required asset that cannot be fetched *)
(* ===================================================================== *)

Lemma prefix_app sub b : String.prefix sub (sub +:+ b) = true.
Proof.
  induction sub as [|c sub IH]; simpl; [by destruct b|].
  by destruct (Ascii.ascii_dec c c).
Qed.

Lemma includes_prefix sub b : includes (sub +:+ b) sub = true.
Proof.
  pose proof (prefix_app sub b) as H.
  destruct (sub +:+ b); unfold includes; fold includes; by rewrite H.
Qed.

Lemma includes_refl s : includes s s = true.
Proof.
  assert (String.prefix s s = true) as H.
  { induction s as [|c s IH]; simpl; [done|]. by destruct (Ascii.ascii_dec c c). }
  destruct s; unfold includes; fold includes; by rewrite H.
Qed.

Lemma includes_app a s sub : includes s sub = true -> includes (a +:+ s) sub = true.
Proof.
  intros H. induction a as [|c a IH]; [done|].
  change (String c a +:+ s) with (String c (a +:+ s)).
  unfold includes; fold includes. rewrite IH. apply orb_true_r.
Qed.

(** Successful answers move the asset loop forward, and nothing else. *)
Lemma assets_pass env t cb passed : forall w f todo oks file rest,
  tasks w !! t = Some (Suspended (CheckFetch cb f todo)) ->
  f :: todo = passed ++ file :: rest ->
  length oks = length passed ->
  Forall (fun res => ok res = true) oks ->
  let w' := run env (map (fun res => Resume t (Fulfilled (VResponse res))) oks) w in
  tasks w' !! t = Some (Suspended (CheckFetch cb file rest)) /\
  length (tasks w') = length (tasks w) /\
  this (rt w') = this (rt w) /\
  built (log (rt w')) = built (log (rt w)).
Proof.
  induction passed as [|p ps IH]; intros w f todo oks file rest Hl Hsplit Hlen Hok.
  - destruct oks; [|done]. simpl in *. by simplify_eq.
  - destruct oks as [|res oks]; [done|]. simpl in Hsplit, Hlen. simplify_eq.
    apply Forall_cons in Hok as [Hres Hok].
    assert (t < length (tasks w)) as Hlt by (by eapply lookup_lt_Some).
    destruct (ps ++ file :: rest) as [|f' todo'] eqn:Hnext.
    { by destruct ps. }
    cbn [map]. rewrite run_cons.
    assert (step env (Resume t (Fulfilled (VResponse res))) w
            = {| rt := emit (FetchHead (asset_url (basePath (this (rt w))) f')) (rt w);
                 tasks := <[t := Suspended (CheckFetch cb f' todo')]> (tasks w) |}) as ->.
    { simpl. rewrite Hl. simpl. by rewrite Hres. }
    edestruct (IH {| rt := emit (FetchHead (asset_url (basePath (this (rt w))) f')) (rt w);
                     tasks := <[t := Suspended (CheckFetch cb f' todo')]> (tasks w) |}
                 f' todo' oks file rest) as (H1 & H2 & H3 & H4); try done.
    { simpl. by apply list_lookup_insert_eq. }
    split; [done|]. split; [by rewrite H2; simpl; rewrite length_insert|].
    split; [done|]. rewrite H4. simpl. by rewrite built_snoc, app_nil_r.
Qed.

(** C8, as stated, fails for one kind of network failure: a rejection that
    is itself an [Error] whose message starts with "Required file" is passed
    on unchanged by line 181, so the error [initialize] ends with names
    neither the asset nor anything else the wrapper adds. *)
Lemma passed_on_error_does_not_name_asset :
  let e := ErrorObj "TypeError" "Required file server is down" in
  let w := run isolated [Call (Initialize None); Resume 0 (Rejected e); Resume 0 tick]
             (fresh None) in
  tasks w = [Done (Threw e)] /\
  fetched (log (rt w)) = [asset_url LIBREOFFICE_PATH "soffice.wasm"] /\
  includes (Js.message e) "soffice.wasm" = false.
Proof. vm_compute. done. Qed.

(** C8 (amended): on a page that passes the environment check, when
    [initialize] runs its body and the requests for the assets before [file]
    succeed while the request for the required asset [file] is answered with
    a non-success status or fails, [initialize] ends with the error of the
    asset loop and no engine is built; and unless the failure is itself an
    [Error] whose message starts with "Required file" (line 181 passes that
    one on as it is), the message of the error names [file] and the status or
    network error observed. *)
Theorem failed_asset_aborts env w cb passed file rest oks s err :
  lacking env = false ->
  initialized (this (rt w)) = false ->
  initializing (this (rt w)) = false ->
  files = passed ++ file :: rest ->
  length oks = length passed ->
  Forall (fun res => ok res = true) oks ->
  asset_failure file s = Some err ->
  let t := length (tasks w) in
  let w' := run env (Call (Initialize cb)
                     :: map (fun res => Resume t (Fulfilled (VResponse res))) oks
                     ++ [Resume t s; Resume t tick]) w in
  tasks w' !! t = Some (Done (Threw err)) /\
  built (log (rt w')) = built (log (rt w)) /\
  (passed_on s = false ->
   includes (Js.message err) file = true /\
   includes (Js.message err) (observed s) = true).
Proof.
  intros Henv Hd Hg Hfiles Hlen Hok Hfail t w'.
  set (w1 := step env (Call (Initialize cb)) w).
  assert (tasks w1 !! t = Some (Suspended (CheckFetch cb "soffice.wasm"
            ["soffice.data"; "soffice.js"; "soffice.worker.js"; "browser.worker.global.js"]))
          /\ built (log (rt w1)) = built (log (rt w))) as [Hl1 Hb1].
  { subst w1. simpl. unfold initialize, checkEnvironment. rewrite Hd, Hg.
    fold (lacking env). rewrite Henv. simpl. split.
    - by apply list_lookup_middle.
    - rewrite built_snoc, app_nil_r. by destruct cb; simpl; rewrite ?built_snoc, ?app_nil_r. }
  destruct (assets_pass env t cb passed w1 _ _ oks file rest Hl1 Hfiles Hlen Hok)
    as (Hl2 & _ & _ & Hb2).
  set (w2 := run env (map (fun res => Resume t (Fulfilled (VResponse res))) oks) w1) in *.
  assert (w' = run env [Resume t s; Resume t tick] w2) as ->.
  { subst w' w2 w1. by rewrite run_cons, run_app. }
  assert (t < length (tasks w2)) as Hlt by (by eapply lookup_lt_Some).
  assert (tasks (run env [Resume t s; Resume t tick] w2) !! t = Some (Done (Threw err))
          /\ built (log (rt (run env [Resume t s; Resume t tick] w2))) = built (log (rt w2)))
    as [Hl3 Hb3].
  { unfold run. simpl. rewrite Hl2. simpl. unfold asset_answer.
    destruct s as [[| res | |]|e]; simpl in Hfail; try done.
    - destruct (ok res); [done|]. simplify_eq. simpl.
      rewrite list_lookup_insert_eq by done. simpl. split; [|done].
      apply list_lookup_insert_eq. by rewrite length_insert.
    - simplify_eq. simpl.
      rewrite list_lookup_insert_eq by done. simpl. split; [|done].
      apply list_lookup_insert_eq. by rewrite length_insert. }
  split; [done|]. split; [by rewrite Hb3, Hb2|].
  intros Hpass. destruct s as [[| res | |]|e]; simpl in Hfail, Hpass; try done.
  - destruct (ok res); [done|]. simplify_eq.
    unfold asset_status_error, Error, observed. cbn [Js.message]. split.
    + apply includes_app, includes_prefix.
    + do 3 apply includes_app.
      apply includes_refl.
  - simplify_eq. unfold catch_asset. rewrite Hpass.
    unfold asset_network_error, Error, observed. cbn [Js.message]. split.
    + apply includes_app, includes_prefix.
    + do 3 apply includes_app.
      apply includes_refl.
Qed.

(** The theorem at work: the data bundle is answered 404 on a fresh
    converter. *)
Lemma failed_asset_aborts_witness :
  let w' := run isolated
              [Call (Initialize None); Resume 0 (answered 200);
               Resume 0 (answered 404); Resume 0 tick] (fresh None) in
  tasks w' !! 0
  = Some (Done (Threw (Error "Required file soffice.data returned HTTP 404"))) /\
  built (log (rt w')) = [] /\
  (false = false ->
   includes "Required file soffice.data returned HTTP 404" "soffice.data" = true /\
   includes "Required file soffice.data returned HTTP 404" "404" = true).
Proof.
  apply (failed_asset_aborts isolated (fresh None) None
           ["soffice.wasm"] "soffice.data"
           ["soffice.js"; "soffice.worker.js"; "browser.worker.global.js"]
           [{| status := 200; statusText := "" |}] (answered 404)
           (Error "Required file soffice.data returned HTTP 404")).
  - reflexivity.
  - reflexivity.
  - reflexivity.
  - reflexivity.
  - reflexivity.
  - repeat constructor.
  - reflexivity.
Defined.

(* ===================================================================== *)
(** * C1: the guard of convert *)
(* ===================================================================== *)

(** Without an engine handle [convert] fails at once with the error of
    line 196 and touches nothing. *)
Lemma convert_without_handle file outputFormat r :
  converter (this r) = None ->
  convert file outputFormat r = (r, Done (Threw not_initialized_error)).
Proof. unfold convert. by intros ->. Qed.

(** The guard looks at the handle only, not at [initialized]. *)
Lemma convert_with_handle file outputFormat r h :
  converter (this r) = Some h ->
  convert file outputFormat r = (r, Suspended (ReadingFile file outputFormat)).
Proof. unfold convert. by intros ->. Qed.

(** C1 fails on the code: [initialize] stores the engine in [this.converter]
    (line 76) before the boot, and nothing clears it when the boot fails.
    After such a failed [initialize] the converter is not ready, yet
    [convert] passes its guard and calls the engine's [convert]. *)
Theorem convert_after_failed_boot_reaches_engine :
  let file := {| name := "report.docx"; type := ""; size := 10 |} in
  let w := run isolated
             (boot_failed None ++
              [Call (Convert file "pdf"); Resume 1 (Fulfilled (VBuffer []))])
             (fresh None) in
  tasks w !! 0 = Some (Done (Threw boot_failure)) /\
  isReady (this (rt w)) = false /\
  initialized (this (rt w)) = false /\
  tasks w !! 1 = Some (Suspended (Converting file)) /\
  last (log (rt w)) = Some (EngineConvert 0 [] "pdf" "docx" "report.docx").
Proof. vm_compute. done. Qed.

(* ===================================================================== *)
(** * C3: destroy *)
(* ===================================================================== *)

(** C3, as stated, fails: when the engine's [destroy()] rejects, line 245
    throws, lines 247-248 are skipped: [destroy] fails with the engine's
    error, the handle stays and [initialized] stays set. *)
Lemma destroy_fails_when_shutdown_fails :
  let e := Other "worker already terminated" in
  let w := run isolated (booted None ++ [Call Destroy; Resume 1 (Rejected e)])
             (fresh None) in
  tasks w !! 1 = Some (Done (Threw e)) /\
  converter (this (rt w)) = Some 0 /\
  initialized (this (rt w)) = true.
Proof. vm_compute. done. Qed.

(** C3 (amended): in every state, [destroy()] without an engine handle
    returns at once, with the handle null and [initialized] clear; with a
    handle it asks the engine to shut down and waits; when the shutdown
    succeeds it returns with the handle null and [initialized] clear; when
    the shutdown reports an error, [destroy()] fails with that error and
    leaves the fields of the converter as they were. *)
Theorem destroy_clears_unless_shutdown_fails env :
  (forall w,
      let t := length (tasks w) in
      let w' := step env (Call Destroy) w in
      match converter (this (rt w)) with
      | None =>
          tasks w' !! t = Some (Done Returned) /\
          converter (this (rt w')) = None /\ initialized (this (rt w')) = false
      | Some h =>
          tasks w' !! t = Some (Suspended Destroying) /\
          this (rt w') = this (rt w) /\
          log (rt w') = log (rt w) ++ [EngineDestroy h]
      end) /\
  (forall w t,
      tasks w !! t = Some (Suspended Destroying) ->
      (forall v,
          let w' := step env (Resume t (Fulfilled v)) w in
          tasks w' !! t = Some (Done Returned) /\
          converter (this (rt w')) = None /\ initialized (this (rt w')) = false) /\
      (forall e,
          let w' := step env (Resume t (Rejected e)) w in
          tasks w' !! t = Some (Done (Threw e)) /\
          this (rt w') = this (rt w))).
Proof.
  split.
  - intros w t w'. subst t w'. simpl. unfold destroy.
    destruct (converter (this (rt w))); simpl;
      (split; [by apply list_lookup_middle | done]).
  - intros w t Hl.
    assert (t < length (tasks w)) as Hlt by (by eapply lookup_lt_Some).
    split; intros x w'; subst w'; simpl; rewrite Hl; simpl;
      (split; [by apply list_lookup_insert_eq | done]).
Qed.

(* ===================================================================== *)
(** * C5: the input format *)
(* ===================================================================== *)

(** The last piece of [split] is the part after the last dot, and the whole
    string when there is no dot. *)
Lemma split_dot s :
  match after_last_dot s with
  | None => split "."%char s = [s]
  | Some e => exists p ps, split "."%char s = (p :: ps) ++ [e]
  end.
Proof.
  induction s as [|c s IH]; simpl; [done|].
  destruct (after_last_dot s) as [e|].
  - destruct IH as (p & ps & ->).
    destruct (Ascii.eqb c "."%char); simpl; [by exists EmptyString, (p :: ps) | eauto].
  - rewrite IH. destruct (Ascii.eqb c "."%char); simpl; [|done].
    by exists EmptyString, [].
Qed.

(** On a name with a dot the code agrees with the specification. *)
Lemma ext_with_dot file_name e :
  after_last_dot file_name = Some e ->
  ext file_name = toLowerCase e /\ ext file_name = extension_spec file_name.
Proof.
  intros H. pose proof (split_dot file_name) as Hs. rewrite H in Hs.
  destruct Hs as (p & ps & Hs). unfold ext, extension_spec, pop.
  rewrite Hs, H, last_snoc. done.
Qed.

(** On a name without a dot the code takes the whole name. *)
Lemma ext_without_dot file_name :
  after_last_dot file_name = None -> ext file_name = toLowerCase file_name.
Proof.
  intros H. pose proof (split_dot file_name) as Hs. rewrite H in Hs.
  unfold ext, pop. by rewrite Hs.
Qed.

(** C5 fails on the code: for a file name without a dot, [split('.')] gives
    the whole name as its only piece, so [ext] is the lower-cased file name
    and not the empty string. *)
Theorem ext_of_dotless_name :
  ext "README" = "readme" /\
  extension_spec "README" = "" /\
  ext "Report.DOCX" = "docx" /\
  ext "archive." = "".
Proof. vm_compute. done. Qed.

(* ===================================================================== *)
(** * C6: concurrent calls of initialize *)
(* ===================================================================== *)

Lemma boots_snoc lg e :
  boots (lg ++ [e]) = boots lg + match e with EngineInitialize _ => 1 | _ => 0 end.
Proof. unfold boots. rewrite omap_app, length_app. by destruct e. Qed.

Lemma onProgress_boots h info r : boots (log (onProgress h info r)) = boots (log r).
Proof.
  unfold onProgress. cases_tac; try done. rewrite boots_snoc. simpl. lia.
Qed.

Lemma polling_waiter rest :
  Forall (fun tk' => tk' = Suspended PollSleep) rest -> Forall waiter rest.
Proof. intros H. eapply Forall_impl; [exact H|]. unfold waiter. auto. Qed.

Lemma turn_one_boot env x w : one_boot w -> one_boot (step env (label_of x) w).
Proof.
  destruct w as [[o es lg] ts]. unfold one_boot. destruct x as [t s|h info]; simpl.
  2:{ rewrite onProgress_boots, onProgress_this. done. }
  destruct ts as [|tk rest]; [done|].
  destruct t as [|t]; simpl.
  - (* the first caller moves *)
    destruct tk as [k|oc]; [|done].
    destruct (resume k s _) as [[r tk']|] eqn:E; [|done].
    simpl. intros Hlead.
    destruct k; try done; simpl in E, Hlead; destruct Hlead as (Hb & Hg & Hrest);
      pose proof (polling_waiter rest Hrest) as Hw;
      unfold check_failed, asset_answer, start_engine, boot_answer, next_asset,
        clear_progressCallback, notify in E;
      revert E; cases_tac; intros E; simplify_eq; simpl;
      rewrite ?boots_snoc; simpl; rewrite ?boots_snoc; simpl;
      (split; [lia|]); (split; [done|]); done.
  - (* a waiter moves *)
    destruct (rest !! t) as [[k|oc]|] eqn:Hl; try done.
    destruct tk as [[]|[]]; simpl; try done; intros (Hb & Hg & Hrest);
      pose proof (proj1 (Forall_lookup _ _) Hrest t _ Hl) as Hk; simpl in Hk;
      try destruct Hk as [Hk|Hk]; simplify_eq;
      destruct s as [[]|]; simpl; try (by repeat split);
      unfold poll_answer; simpl; rewrite Hg; simpl;
      (split; [done|]); (split; [done|]);
      apply Forall_insert; try done; unfold waiter; auto.
Qed.

Lemma turns_one_boot env after w :
  one_boot w -> one_boot (run env (map label_of after) w).
Proof.
  revert w. induction after as [|x after IH]; intros w H; [done|].
  cbn [map]. rewrite run_cons. by apply IH, turn_one_boot.
Qed.

Lemma turns_length env after w :
  length (tasks (run env (map label_of after) w)) = length (tasks w).
Proof.
  revert w. induction after as [|x after IH]; intros w; [done|].
  cbn [map]. rewrite run_cons, IH.
  destruct x as [t s|h info]; simpl; [|done].
  destruct (tasks w !! t) as [[k|]|]; try done.
  destruct (resume k s (rt w)) as [[r tk]|]; [|done].
  simpl. apply length_insert.
Qed.

(** Once the check of the first caller has failed, nothing starts a boot. *)
Lemma turn_check_lost env cb e x w :
  check_lost cb e w -> check_lost cb e (step env (label_of x) w).
Proof.
  destruct w as [[o es lg] ts]. unfold check_lost. destruct x as [t s|h info]; simpl.
  2:{ rewrite onProgress_boots. done. }
  destruct ts as [|tk rest]; [by intros [_ []]|].
  intros (Hb & Htk & Hrest).
  destruct t as [|t]; simpl.
  - destruct Htk as [->| ->]; [|simpl; auto].
    simpl. destruct s as [[]|]; simpl; auto.
  - destruct (rest !! t) as [[k|oc]|] eqn:Hl; try done.
    destruct (proj1 (Forall_lookup _ _) Hrest t _ Hl) as [Hk|Hk]; simplify_eq.
    destruct s as [[]|]; simpl; try (by repeat split).
    unfold poll_answer. simpl. destruct (initializing o); simpl;
      (split; [done|]); (split; [done|]);
      apply Forall_insert; try done; unfold waiter; auto.
Qed.

Lemma turns_check_lost env cb e after w :
  check_lost cb e w -> check_lost cb e (run env (map label_of after) w).
Proof.
  revert w. induction after as [|x after IH]; intros w H; [done|].
  cbn [map]. rewrite run_cons. by apply IH, turn_check_lost.
Qed.

(** The calls themselves: the first runs the body up to its first await,
    the others find [initializing] set and start polling. *)
Lemma calls_one_boot env basePath cb cbs :
  let w := run env (map (fun cb => Call (Initialize cb)) (cb :: cbs)) (fresh basePath) in
  one_boot w /\ length (tasks w) = S (length cbs) /\
  initialized (this (rt w)) = false /\ initializing (this (rt w)) = true.
Proof.
  induction cbs as [|cb' cbs IH] using rev_ind.
  - unfold run, one_boot. simpl. unfold initialize, checkEnvironment. simpl.
    destruct (negb (crossOriginIsolated env) || negb (hasSharedArrayBuffer env)); simpl;
      rewrite ?notify_this; repeat split; try done;
      destruct cb; simpl; unfold boots; simpl; done.
  - cbv zeta in IH |- *. rewrite app_comm_cons, map_app, run_app.
    destruct IH as (Hone & Hlen & Hd & Hg).
    set (w := run env (map _ (cb :: cbs)) (fresh basePath)) in *. clearbody w.
    change (run env (map _ [cb']) w) with (step env (Call (Initialize cb')) w).
    destruct w as [r ts]. simpl in *. unfold initialize. rewrite Hd, Hg. simpl.
    rewrite !length_app, Hlen. simpl.
    split; [|split; [lia | done]].
    unfold one_boot in *. simpl in *.
    destruct ts as [|tk rest]; [done|]. simpl. rewrite Hg in *.
    destruct tk as [[]|[]]; simpl in *; try done;
      destruct Hone as (Hb & Hgt & Hrest); try done;
      (split; [done|]); (split; [done|]);
      apply Forall_app; split; try done; by repeat constructor.
Qed.

(** C6, as stated, fails twice.  When the engine's boot fails, the first
    caller gets the error and the second, which was polling, returns
    normally: the callers do not agree.  And when the environment check
    fails, the boot procedure is never started at all. *)
Lemma waiting_caller_succeeds_when_boot_fails :
  let w := run isolated
             (concurrent_initialize [None; None]
                (replicate 5 (Settle 0 (answered 200)) ++
                 [Settle 0 tick; Settle 0 (Rejected boot_failure); Settle 1 tick]))
             (fresh None) in
  let w0 := run {| crossOriginIsolated := false; hasSharedArrayBuffer := true |}
              (concurrent_initialize [None; None] [Settle 0 tick; Settle 1 tick])
              (fresh None) in
  tasks w = [Done (Threw boot_failure); Done Returned] /\
  boots (log (rt w)) = 1 /\
  tasks w0 = [Done (Threw (environment_error false)); Done Returned] /\
  boots (log (rt w0)) = 0.
Proof. vm_compute. done. Qed.

(** C6 (amended): for every number of calls of [initialize] made on a fresh
    converter before any of them is resumed, and whatever happens afterwards
    short of another call:
    - the engine's boot procedure is started at most once, and exactly once
      when the first caller has returned;
    - if at any point the environment or asset check of the first caller has
      failed, no boot is ever started, and the first caller ends with the
      error of the check;
    - every caller but the first is polling or has returned normally,
      whatever the outcome of the first, and none of them has returned before
      the first caller was done and [initializing] was cleared;
    - a polling caller whose timer fires goes on polling while
      [initializing] is set, and returns normally once it is clear. *)
Theorem concurrent_initialize_boots_at_most_once env basePath cbs after :
  let w := run env (concurrent_initialize cbs after) (fresh basePath) in
  length (tasks w) = length cbs /\
  boots (log (rt w)) <= 1 /\
  (tasks w !! 0 = Some (Done Returned) -> boots (log (rt w)) = 1) /\
  (forall n cb e,
      tasks (run env (concurrent_initialize cbs (take n after)) (fresh basePath)) !! 0
      = Some (Suspended (CheckFailed cb e)) ->
      boots (log (rt w)) = 0 /\
      (tasks w !! 0 = Some (Suspended (CheckFailed cb e)) \/
       tasks w !! 0 = Some (Done (Threw e)))) /\
  (forall i tk, 1 <= i -> tasks w !! i = Some tk -> waiter tk) /\
  (forall i, 1 <= i -> tasks w !! i = Some (Done Returned) ->
      initializing (this (rt w)) = false /\ exists o, tasks w !! 0 = Some (Done o)) /\
  (forall i,
      tasks w !! i = Some (Suspended PollSleep) ->
      tasks (step env (Resume i tick) w) !! i
      = Some (if initializing (this (rt w)) then Suspended PollSleep else Done Returned)).
Proof.
  intros w.
  assert (forall after',
            let w' := run env (concurrent_initialize cbs after') (fresh basePath) in
            one_boot w' /\ length (tasks w') = length cbs) as Hall.
  { intros after' w'. subst w'. unfold concurrent_initialize. rewrite run_app.
    set (w1 := run env (map _ cbs) (fresh basePath)).
    assert (one_boot w1 /\ length (tasks w1) = length cbs) as [Hone Hlen].
    { destruct cbs as [|cb cbs]; [done|].
      destruct (calls_one_boot env basePath cb cbs) as (H1 & H2 & _). done. }
    split; [by apply turns_one_boot | by rewrite turns_length]. }
  destruct (Hall after) as [H Hl]. fold w in H, Hl.
  split; [done|].
  assert (forall n cb e,
      tasks (run env (concurrent_initialize cbs (take n after)) (fresh basePath)) !! 0
      = Some (Suspended (CheckFailed cb e)) ->
      boots (log (rt w)) = 0 /\
      (tasks w !! 0 = Some (Suspended (CheckFailed cb e)) \/
       tasks w !! 0 = Some (Done (Threw e)))) as Hlost.
  { intros n cb e Hn.
    assert (check_lost cb e w) as (Hb & Htk); [|split; [done|]].
    2:{ destruct (tasks w) as [|tk rest]; [done|].
        simpl. destruct Htk as [[->| ->] _]; auto. }
    destruct (Hall (take n after)) as [Hmid _].
    set (wm := run env (concurrent_initialize cbs (take n after)) (fresh basePath)) in *.
    assert (w = run env (map label_of (drop n after)) wm) as ->.
    { subst w wm. unfold concurrent_initialize.
      rewrite <- (take_drop n after) at 1. by rewrite map_app, app_assoc, run_app. }
    apply turns_check_lost. clearbody wm.
    unfold one_boot in Hmid. unfold check_lost.
    destruct (tasks wm) as [|tk rest]; [done|]. simpl in Hn. simplify_eq.
    destruct Hmid as (Hb & _ & Hrest). split; [done|]. split; [auto|].
    by apply polling_waiter. }
  clearbody w. unfold one_boot in H.
  destruct (tasks w) as [|tk rest] eqn:Hts.
  - split; [lia|]. split; [done|]. split; [done|].
    split; [by intros [|i]|]. split; [by intros [|i]|]. by intros [|i].
  - split; [|split; [|split; [|split; [|split]]]].
    + destruct tk as [[]|[]]; simpl in H; try done; lia.
    + simpl. intros [= ->]. by destruct H.
    + done.
    + intros [|i] tk' Hi Hlook; [lia|]. simpl in Hlook.
      assert (Forall waiter rest) as Hrest.
      { destruct tk as [[]|[]]; simpl in H; try done;
          destruct H as (_ & _ & Hrest); try done; by apply polling_waiter. }
      by apply (proj1 (Forall_lookup _ _) Hrest i).
    + intros [|i] Hi Hlook; [lia|]. simpl in Hlook.
      destruct tk as [[]|[]]; simpl in H; try done;
        destruct H as (_ & Hg & Hrest);
        try (by pose proof (proj1 (Forall_lookup _ _) Hrest i _ Hlook));
        (split; [done|]); simpl; eauto.
    + intros i Hi. simpl. rewrite Hts, Hi. simpl.
      unfold poll_answer. destruct (initializing (this (rt w))); simpl.
      * rewrite list_insert_id by done. done.
      * apply list_lookup_insert_eq. by eapply lookup_lt_Some.
Qed.

(* ===================================================================== *)
(** * C9: what the progress callback receives *)
(* ===================================================================== *)

Lemma received_snoc cb lg e :
  received cb (lg ++ [e]) =
  received cb lg ++ match e with
                    | Progress f p _ => if decide (f = cb) then [p] else []
                    | _ => []
                    end.
Proof.
  unfold received. rewrite omap_app. destruct e; try done.
  simpl. by destruct (decide (cb0 = cb)).
Qed.

(** The body of [initialize] up to the first request, on a page that
    passes the environment check. *)
Lemma initialize_body env cb w :
  lacking env = false ->
  initialized (this (rt w)) = false ->
  initializing (this (rt w)) = false ->
  step env (Call (Initialize cb)) w
  = {| rt := emit (FetchHead (asset_url (basePath (this (rt w))) "soffice.wasm"))
               (notify cb checking (set_this (set_initializing true) (rt w)));
       tasks := tasks w ++ [Suspended (CheckFetch cb "soffice.wasm"
                  ["soffice.data"; "soffice.js"; "soffice.worker.js";
                   "browser.worker.global.js"])] |}.
Proof.
  intros Henv Hd Hg. unfold step, call, initialize, checkEnvironment.
  rewrite Hd, Hg. fold (lacking env). rewrite Henv.
  unfold files, next_asset. by destruct cb.
Qed.

(** When every remaining asset is found the loop ends; only requests were
    added to the log. *)
Lemma assets_all_pass env t cb todo : forall w f oks,
  tasks w !! t = Some (Suspended (CheckFetch cb f todo)) ->
  length oks = S (length todo) ->
  Forall (fun res => ok res = true) oks ->
  let w' := run env (map (fun res => Resume t (Fulfilled (VResponse res))) oks) w in
  tasks w' = <[t := Suspended (CheckPassed cb)]> (tasks w) /\
  this (rt w') = this (rt w) /\
  engines (rt w') = engines (rt w) /\
  exists urls, log (rt w') = log (rt w) ++ map FetchHead urls.
Proof.
  induction todo as [|f' todo IH]; intros w f oks Hl Hlen Hok.
  - destruct oks as [|res [|]]; try done.
    apply Forall_cons in Hok as [Hres _].
    unfold run. simpl. rewrite Hl. simpl. rewrite Hres. simpl.
    repeat split; try done. exists []. by rewrite app_nil_r.
  - destruct oks as [|res oks]; [done|].
    apply Forall_cons in Hok as [Hres Hok].
    assert (t < length (tasks w)) as Hlt by (by eapply lookup_lt_Some).
    cbn [map]. rewrite run_cons.
    assert (step env (Resume t (Fulfilled (VResponse res))) w
            = {| rt := emit (FetchHead (asset_url (basePath (this (rt w))) f')) (rt w);
                 tasks := <[t := Suspended (CheckFetch cb f' todo)]> (tasks w) |}) as ->.
    { simpl. rewrite Hl. simpl. by rewrite Hres. }
    edestruct (IH {| rt := emit (FetchHead (asset_url (basePath (this (rt w))) f')) (rt w);
                     tasks := <[t := Suspended (CheckFetch cb f' todo)]> (tasks w) |}
                 f' oks) as (H1 & H2 & H3 & urls & H4); try done.
    { simpl. by apply list_lookup_insert_eq. }
    { simpl in Hlen. lia. }
    split; [by rewrite H1; simpl; rewrite list_insert_insert_eq|].
    split; [done|]. split; [done|].
    exists (asset_url (basePath (this (rt w))) f' :: urls).
    rewrite H4. simpl. by rewrite <- app_assoc.
Qed.

Lemma received_requests cb lg urls :
  received cb (lg ++ map FetchHead urls) = received cb lg.
Proof.
  unfold received. rewrite omap_app.
  assert (omap (fun e => match e with
                         | Progress f p _ => if decide (f = cb) then Some p else None
                         | _ => None
                         end) (map FetchHead urls) = []) as ->.
  { induction urls; [done|]. simpl. done. }
  apply app_nil_r.
Qed.

(** The engine is built and asked to boot. *)
Lemma engine_started env t cb w :
  tasks w !! t = Some (Suspended (CheckPassed cb)) ->
  step env (Resume t tick) w
  = {| rt := fst (start_engine cb (rt w));
       tasks := <[t := Suspended (Booting cb (length (engines (rt w))))]> (tasks w) |}.
Proof. intros Hl. unfold step. rewrite Hl. by destruct cb. Qed.

(** The boot succeeded. *)
Lemma boot_succeeded env t cb h v w :
  tasks w !! t = Some (Suspended (Booting cb h)) ->
  step env (Resume t (Fulfilled v)) w
  = {| rt := finally_initialize
               (clear_progressCallback h
                  (notify cb ready (set_this (set_initialized true) (rt w))));
       tasks := <[t := Done Returned]> (tasks w) |}.
Proof. intros Hl. unfold step. rewrite Hl. reflexivity. Qed.

(** Progress events of the booting engine reach the callback one by one. *)
Lemma engine_events_forwarded env cb h es : forall w e,
  engines (rt w) !! h = Some e ->
  progressCallback e = Some cb ->
  initialized (this (rt w)) = false ->
  let w' := run env (map (EngineProgress h) es) w in
  this (rt w') = this (rt w) /\ engines (rt w') = engines (rt w) /\
  tasks w' = tasks w /\
  received cb (log (rt w')) = received cb (log (rt w)) ++ map forwarded es.
Proof.
  induction es as [|info es IH]; intros w e He Hcb Hd.
  - simpl. by rewrite app_nil_r.
  - cbn [map]. rewrite run_cons.
    assert (step env (EngineProgress h info) w
            = {| rt := emit (Progress cb (forwarded info) (this (rt w))) (rt w);
                 tasks := tasks w |}) as ->.
    { unfold step, onProgress. by rewrite He, Hcb, Hd. }
    edestruct (IH {| rt := emit (Progress cb (forwarded info) (this (rt w))) (rt w);
                     tasks := tasks w |} e) as (H1 & H2 & H3 & H4); try done.
    split; [done|]. split; [done|]. split; [done|].
    rewrite H4. simpl. rewrite received_snoc. simpl.
    rewrite decide_True by done. by rewrite <- app_assoc.
Qed.

Lemma flying_none ts : flying ts = 0 -> Forall (fun tk => in_flight tk = false) ts.
Proof.
  induction ts as [|tk ts IH]; [constructor|].
  rewrite flying_cons. destruct (in_flight tk) eqn:E; [lia|].
  intros H. constructor; [done | by apply IH].
Qed.

Ltac silent_tac :=
  simpl; rewrite ?received_snoc, ?app_nil_r;
  split; [split|]; simpl; try done;
  try (apply Forall_app; split; [done | by repeat constructor]);
  try (by apply Forall_insert).

Lemma step_silent env cb l w :
  no_initialize l -> silent cb w ->
  silent cb (step env l w) /\
  received cb (log (rt (step env l w))) = received cb (log (rt w)).
Proof.
  destruct w as [[o es lg] ts]. intros Hl [Hes Hts]. simpl in *.
  destruct l as [[f|file fmt|]|t s|h info]; simpl in *.
  - done.
  - unfold convert. simpl. destruct (converter o); silent_tac.
  - unfold destroy. simpl. destruct (converter o); silent_tac.
  - destruct (ts !! t) as [[k|]|] eqn:Hk; try (split; [split|]; done).
    destruct (resume k s _) as [[r tk]|] eqn:E; [|split; [split|]; done].
    assert (in_flight (Suspended k) = false) as Hf.
    { rewrite Forall_lookup in Hts. by apply (Hts t). }
    destruct k; simpl in E, Hf; try done;
      unfold poll_answer, buffer_answer, convert_answer, destroy_answer in E;
      revert E; cases_tac; intros E; simplify_eq; silent_tac.
  - unfold onProgress. simpl. destruct (es !! h) as [e|] eqn:He; [|split; [split|]; done].
    pose proof (proj1 (Forall_lookup _ _) Hes h e He) as Hne. simpl in Hne.
    destruct (progressCallback e) as [f|]; [|split; [split|]; done].
    destruct (initialized o); simpl; [split; [split|]; done|].
    split; [split; done|]. rewrite received_snoc.
    rewrite decide_False by congruence. by rewrite app_nil_r.
Qed.

Lemma run_silent env cb ls : forall w,
  Forall no_initialize ls -> silent cb w ->
  received cb (log (rt (run env ls w))) = received cb (log (rt w)).
Proof.
  induction ls as [|l ls IH]; intros w Hls Hw; [done|].
  apply Forall_cons in Hls as [Hl Hls].
  destruct (step_silent env cb l w Hl Hw) as [Hs Hr].
  rewrite run_cons, IH by done. done.
Qed.

(** C9, as stated, fails twice.  The engine's events are handed on as they
    come, so an engine that reports 50 and then 30 makes the callback see
    0, 5, 50, 30, 100.  And the final event is not always the last: when a
    boot fails, line 113 is skipped and the closure of the failed engine keeps
    the callback; if the same callback is passed to a retry that succeeds, it
    receives ready/100, and after [destroy] has cleared [initialized] an
    event of the failed engine reaches it again. *)
Lemma progress_unordered_and_after_ready :
  let report p := EngineProgress 0
                    {| info_phase := "loading"; info_percent := p; info_message := "" |} in
  let w := run isolated (until_boot (Some 7) ++ [report 50%Q; report 30%Q; Resume 0 tick])
             (fresh None) in
  let retry := Call (Initialize (Some 7))
               :: replicate 5 (Resume 1 (answered 200)) ++ [Resume 1 tick; Resume 1 tick] in
  let w' := run isolated (boot_failed (Some 7) ++ retry
                          ++ [Call Destroy; Resume 2 tick; report 70%Q])
              (fresh None) in
  map percent (received 7 (log (rt w))) = [0; 5; 50; 30; 100]%Q /\
  (30 < 50)%Q /\
  tasks w' = [Done (Threw boot_failure); Done Returned; Done Returned] /\
  map shown (received 7 (log (rt w')))
  = [("loading", 0%Q); ("loading", 5%Q);
     ("loading", 0%Q); ("loading", 5%Q); ("ready", 100%Q);
     ("loading", 70%Q)].
Proof. vm_compute. done. Qed.

(** C9 (amended): take any state of a converter in which no initialization
    is in flight, the converter is not initialized, and no engine holds the
    callback [cb] (so the first initialization of a converter, and any one
    that is not a retry with the callback of a failed boot).  For every
    successful initialization from there (the page passes the environment
    check, the five assets are found, the engine reports the events [es]
    while it boots and then becomes ready) and whatever follows short of
    another call of [initialize], the callback has received in addition
    exactly: loading/0, loading/5, the engine's events in their order with
    phase and percent unchanged, and one final ready/100 event; nothing after
    that event reaches it, whatever the engines still report.  The percentages
    it saw are non-decreasing whenever the engine's own percentages are
    non-decreasing between 5 and 100. *)
Theorem progress_channel_is_one_shot env w cb oks es v late :
  lacking env = false ->
  reachable env w ->
  initialized (this (rt w)) = false ->
  initializing (this (rt w)) = false ->
  Forall (fun e => progressCallback e <> Some cb) (engines (rt w)) ->
  length oks = 5 ->
  Forall (fun res => ok res = true) oks ->
  Forall no_initialize late ->
  let t := length (tasks w) in
  let h := length (engines (rt w)) in
  let w' := run env (Call (Initialize (Some cb))
                     :: map (fun res => Resume t (Fulfilled (VResponse res))) oks
                     ++ [Resume t tick]
                     ++ map (EngineProgress h) es
                     ++ [Resume t (Fulfilled v)]
                     ++ late) w in
  exists news,
    received cb (log (rt w')) = received cb (log (rt w)) ++ news /\
    map shown news
    = [("loading", 0%Q); ("loading", 5%Q)] ++ map reported es ++ [("ready", 100%Q)] /\
    (nondecreasing (5%Q :: map info_percent es ++ [100%Q]) ->
     nondecreasing (map percent news)).
Proof.
  intros Henv Hr Hd Hg Hes Hlen Hok Hlate t h w'.
  pose proof (reachable_consistent env w Hr) as [Hfly _].
  rewrite Hg in Hfly. apply flying_none in Hfly.
  exists ([checking; loading] ++ map forwarded es ++ [ready]).
  split; [|split].
  - subst w'.
    rewrite run_cons.
    rewrite (run_app env (map _ _)), (run_app env [_]), (run_app env (map _ es)),
      (run_app env [_]).
    (* the call *)
    rewrite (initialize_body env (Some cb) w Henv Hd Hg).
    set (w0 := {| rt := _; tasks := _ |}).
    assert (tasks w0 = tasks w ++ [Suspended (CheckFetch (Some cb) "soffice.wasm"
              ["soffice.data"; "soffice.js"; "soffice.worker.js";
               "browser.worker.global.js"])]) as Ht0 by done.
    assert (engines (rt w0) = engines (rt w)) as He0 by done.
    assert (initialized (this (rt w0)) = false) as Hd0 by done.
    assert (received cb (log (rt w0)) = received cb (log (rt w)) ++ [checking]) as Hr0.
    { subst w0. unfold notify, emit. cbn [rt log this]. rewrite !received_snoc.
      cbn [app]. rewrite decide_True by done. by rewrite app_nil_r. }
    assert (tasks w0 !! t = Some (Suspended (CheckFetch (Some cb) "soffice.wasm"
              ["soffice.data"; "soffice.js"; "soffice.worker.js";
               "browser.worker.global.js"]))) as Hl0.
    { rewrite Ht0. by apply list_lookup_middle. }
    (* the five assets *)
    destruct (assets_all_pass env t (Some cb) _ w0 _ oks Hl0 Hlen Hok)
      as (Ht1 & Hth1 & He1 & urls & Hl1).
    set (w1 := run env (map _ oks) w0) in *. clearbody w0 w1.
    assert (tasks w1 = tasks w ++ [Suspended (CheckPassed (Some cb))]) as Ht1'.
    { rewrite Ht1, Ht0. subst t. rewrite insert_app_r_alt by done.
      by rewrite Nat.sub_diag. }
    assert (tasks w1 !! t = Some (Suspended (CheckPassed (Some cb)))) as Hl1'.
    { rewrite Ht1'. by apply list_lookup_middle. }
    (* the engine is built *)
    change (run env [Resume t tick] w1) with (step env (Resume t tick) w1).
    rewrite (engine_started env t (Some cb) w1 Hl1').
    set (w2 := {| rt := _; tasks := _ |}).
    assert (tasks w2 = tasks w ++ [Suspended (Booting (Some cb) h)]) as Ht2.
    { subst w2. cbn [tasks]. rewrite Ht1', He1, He0. subst t h.
      rewrite insert_app_r_alt by done. by rewrite Nat.sub_diag. }
    assert (engines (rt w2)
            = engines (rt w) ++ [{| options := engine_options (basePath (this (rt w1)));
                                    progressCallback := Some cb |}]) as He2.
    { subst w2. unfold start_engine, notify, emit, set_this, set_engines.
      cbn [rt fst engines log this]. by rewrite He1, He0. }
    assert (initialized (this (rt w2)) = false) as Hd2.
    { subst w2. unfold start_engine, notify, emit, set_this, set_engines.
      cbn [rt fst engines log this set_converter initialized]. by rewrite Hth1. }
    assert (received cb (log (rt w2)) = received cb (log (rt w)) ++ [checking; loading])
      as Hr2.
    { subst w2. unfold start_engine, notify, emit, set_this, set_engines.
      cbn [rt fst engines log this]. rewrite !received_snoc, Hl1, received_requests, Hr0.
      cbn [app]. rewrite decide_True by done. by rewrite !app_nil_r, <- app_assoc. }
    assert (engines (rt w2) !! h
            = Some {| options := engine_options (basePath (this (rt w1)));
                      progressCallback := Some cb |}) as Hh2.
    { rewrite He2. by apply list_lookup_middle. }
    clearbody w2.
    (* the engine reports progress *)
    destruct (engine_events_forwarded env cb h es w2 _ Hh2 eq_refl Hd2)
      as (Hth3 & He3 & Ht3 & Hr3).
    set (w3 := run env (map (EngineProgress h) es) w2) in *. clearbody w3.
    (* the boot succeeds *)
    change (run env [Resume t (Fulfilled v)] w3)
      with (step env (Resume t (Fulfilled v)) w3).
    assert (tasks w3 !! t = Some (Suspended (Booting (Some cb) h))) as Hl3.
    { rewrite Ht3, Ht2. by apply list_lookup_middle. }
    rewrite (boot_succeeded env t (Some cb) h v w3 Hl3).
    set (w4 := {| rt := _; tasks := _ |}).
    assert (silent cb w4) as Hs4.
    { subst w4. split.
      - unfold finally_initialize, clear_progressCallback, notify, emit, set_this,
          set_engines. cbn [rt engines log this]. rewrite He3, Hh2.
        cbn [rt engines log this options]. rewrite He2.
        subst h. rewrite insert_app_r_alt by done. rewrite Nat.sub_diag.
        apply Forall_app. split; [done|]. by repeat constructor.
      - cbn [tasks]. rewrite Ht3, Ht2. subst t.
        rewrite insert_app_r_alt by done. rewrite Nat.sub_diag.
        apply Forall_app. split; [done|]. by repeat constructor. }
    assert (received cb (log (rt w4)) = received cb (log (rt w3)) ++ [ready]) as Hr4.
    { subst w4. unfold finally_initialize, clear_progressCallback, notify, emit, set_this,
        set_engines. cbn [rt engines log this]. rewrite He3, Hh2.
      cbn [rt engines log this]. rewrite received_snoc.
      by rewrite decide_True. }
    clearbody w4.
    rewrite (run_silent env cb late w4 Hlate Hs4), Hr4, Hr3, Hr2.
    by rewrite <- !app_assoc.
  - rewrite !map_app, map_map. done.
  - clear. simpl. intros Hes. split; [done|].
    rewrite map_app, map_map. exact Hes.
Qed.

(** The theorem at work: a converter that was initialized with the callback
    and destroyed is initialized again with the same callback; the engine
    reports 50 while booting, and both engines report after the new one
    became ready. *)
Lemma progress_channel_is_one_shot_witness :
  let report p := {| info_phase := "loading"; info_percent := p; info_message := "" |} in
  let w := run isolated (booted (Some 7) ++ [Call Destroy; Resume 1 tick]) (fresh None) in
  let w' := run isolated
              (Call (Initialize (Some 7))
               :: map (fun res => Resume 2 (Fulfilled (VResponse res)))
                    (replicate 5 {| status := 200; statusText := "" |})
               ++ [Resume 2 tick]
               ++ map (EngineProgress 1) [report 50%Q]
               ++ [Resume 2 (Fulfilled VUndefined)]
               ++ [EngineProgress 1 (report 99%Q); EngineProgress 0 (report 98%Q)]) w in
  exists news,
    received 7 (log (rt w')) = received 7 (log (rt w)) ++ news /\
    map shown news
    = [("loading", 0%Q); ("loading", 5%Q)] ++ map reported [report 50%Q]
      ++ [("ready", 100%Q)] /\
    (nondecreasing (5%Q :: map info_percent [report 50%Q] ++ [100%Q]) ->
     nondecreasing (map percent news)).
Proof.
  apply (progress_channel_is_one_shot isolated
           (run isolated (booted (Some 7) ++ [Call Destroy; Resume 1 tick]) (fresh None))
           7
           (replicate 5 {| status := 200; statusText := "" |})
           [{| info_phase := "loading"; info_percent := 50; info_message := "" |}]
           VUndefined
           [EngineProgress 1
              {| info_phase := "loading"; info_percent := 99; info_message := "" |};
            EngineProgress 0
              {| info_phase := "loading"; info_percent := 98; info_message := "" |}]).
  - reflexivity.
  - apply reachable_run, reachable_fresh.
  - reflexivity.
  - reflexivity.
  - by repeat constructor.
  - reflexivity.
  - repeat constructor.
  - repeat constructor.
Defined.

(* ===================================================================== *)
(** * C10: the singleton *)
(* ===================================================================== *)

Lemma act_pinned env a p x m : pinned a p m -> pinned a p (act env x m).
Proof.
  intros (Hc & Hr & w & Hw & Hp).
  destruct x as [arg|arg|b l]; simpl.
  - unfold getLibreOfficeConverter. rewrite Hc. simpl.
    split; [done|]. split; [|by exists w].
    apply Forall_app. split; [done|]. by repeat constructor.
  - split; [done|]. split; [done|]. exists w. split; [|done].
    apply lookup_app_l_Some. done.
  - destruct (heap m !! b) as [wb|] eqn:Hb; [|by repeat split; eauto].
    simpl. split; [done|]. split; [done|].
    destruct (decide (a = b)) as [->|Hne].
    + exists (step env l wb). split.
      * apply list_lookup_insert_eq. by eapply lookup_lt_Some.
      * rewrite step_basePath. congruence.
    + exists w. split; [|done]. simpl. rewrite list_lookup_insert_ne; done.
Qed.

Lemma acts_pinned env a p xs : forall m, pinned a p m -> pinned a p (acts env xs m).
Proof.
  induction xs as [|x xs IH]; intros m H; [done|].
  simpl. by apply IH, act_pinned.
Qed.

Lemma acts_first_get env xs : forall m arg,
  unset m ->
  first_get xs = Some arg ->
  exists a, pinned a (basePath (new_LibreOfficeConverter arg)) (acts env xs m) /\
            a < length (heap (acts env xs m)).
Proof.
  induction xs as [|x xs IH]; intros m arg [Hc Hr] Hfirst; [done|].
  destruct x as [arg'|arg'|b l]; simpl in Hfirst.
  - simplify_eq. exists (length (heap m)).
    assert (pinned (length (heap m)) (basePath (new_LibreOfficeConverter arg))
              (act env (Get arg) m)) as Hpin.
    { simpl. unfold getLibreOfficeConverter. rewrite Hc, Hr. simpl.
      split; [done|]. split; [by repeat constructor|].
      exists (fresh arg). split; [|done]. by apply list_lookup_middle. }
    pose proof (acts_pinned env _ _ xs _ Hpin) as Hfin. split; [done|].
    destruct Hfin as (_ & _ & w & Hw & _). by eapply lookup_lt_Some.
  - apply (IH (act env (New arg') m) arg); [by split|done].
  - apply (IH (act env (On b l) m) arg); [|done].
    simpl. destruct (heap m !! b); by split.
Qed.

(** The accessor returns something at every call. *)
Lemma acts_returned env xs : forall m,
  length (returned (acts env xs m))
  = length (returned m)
    + length (List.filter (fun x => match x with Get _ => true | _ => false end) xs).
Proof.
  induction xs as [|x xs IH]; intros m; [simpl; lia|].
  simpl. rewrite IH. destruct x as [arg|arg|b l]; simpl.
  - unfold getLibreOfficeConverter. destruct (converterInstance m); simpl;
      rewrite length_app; simpl; lia.
  - done.
  - by destruct (heap m !! b).
Qed.

(** C10: for every sequence of accessor calls, constructor calls by other
    code, and turns of the event loop on any converter object (so also across
    [destroy] and a new [initialize]), every call of
    [getLibreOfficeConverter] returned the same object, the one the module
    variable holds; and the base path of that object is the argument of the
    first call when that is a non-empty string and "/libreoffice-wasm/"
    when it is absent or empty, whatever later calls passed. *)
Theorem singleton_is_pinned env xs arg :
  first_get xs = Some arg ->
  let m := acts env xs loaded in
  exists a w,
    converterInstance m = Some a /\
    length (returned m)
    = length (List.filter (fun x => match x with Get _ => true | _ => false end) xs) /\
    Forall (fun r => r = a) (returned m) /\
    heap m !! a = Some w /\
    basePath (this (rt w)) = match arg with
                             | Some p => if String.eqb p "" then "/libreoffice-wasm/" else p
                             | None => "/libreoffice-wasm/"
                             end.
Proof.
  intros Hfirst m.
  destruct (acts_first_get env xs loaded arg) as (a & (Hc & Hr & w & Hw & Hp) & _);
    [by split | done |].
  exists a, w. split; [done|]. split; [|split; [done|split; [done|]]].
  - subst m. by rewrite acts_returned.
  - rewrite Hp. by destruct arg.
Qed.

(** The theorem at work: the accessor is called with a path, the converter
    is initialized and destroyed, and the accessor is called again with
    another path and without one. *)
Lemma singleton_is_pinned_witness :
  let m := acts isolated
             ([New None; Get (Some "/office/")]
              ++ map (On 1) (booted None ++ [Call Destroy; Resume 1 tick])
              ++ [Get (Some "/elsewhere/"); Get None]) loaded in
  exists a w,
    converterInstance m = Some a /\
    length (returned m) = 3 /\
    Forall (fun r => r = a) (returned m) /\
    heap m !! a = Some w /\
    basePath (this (rt w)) = "/office/".
Proof.
  apply (singleton_is_pinned isolated
           ([New None; Get (Some "/office/")]
            ++ map (On 1) (booted None ++ [Call Destroy; Resume 1 tick])
            ++ [Get (Some "/elsewhere/"); Get None]) (Some "/office/")).
  reflexivity.
Defined.

(* ===================================================================== *)
(** * Further properties: a successful initialization *)
(* ===================================================================== *)

Lemma fetched_app lg1 lg2 : fetched (lg1 ++ lg2) = fetched lg1 ++ fetched lg2.
Proof. apply omap_app. Qed.

Lemma built_app lg1 lg2 : built (lg1 ++ lg2) = built lg1 ++ built lg2.
Proof. apply omap_app. Qed.

Lemma boots_app lg1 lg2 : boots (lg1 ++ lg2) = boots lg1 + boots lg2.
Proof. unfold boots. by rewrite omap_app, length_app. Qed.

Lemma fetched_requests (u : string -> string) fs :
  fetched (map (fun f => FetchHead (u f)) fs) = map u fs.
Proof. induction fs as [|f fs IH]; [done|]. simpl. by rewrite <- IH. Qed.

Lemma built_requests (u : string -> string) fs :
  built (map (fun f => FetchHead (u f)) fs) = [].
Proof. by induction fs. Qed.

Lemma boots_requests (u : string -> string) fs :
  boots (map (fun f => FetchHead (u f)) fs) = 0.
Proof. by induction fs. Qed.

Lemma notify_log cb p r :
  fetched (log (notify cb p r)) = fetched (log r) /\
  built (log (notify cb p r)) = built (log r) /\
  boots (log (notify cb p r)) = boots (log r) /\
  engines (notify cb p r) = engines r.
Proof.
  destruct cb; [|done]. simpl.
  rewrite fetched_snoc, built_snoc, boots_snoc, !app_nil_r. simpl. by rewrite Nat.add_0_r.
Qed.

(** The asset loop, with the requests it issues: after the files in
    [passed] were found, the loop waits for [file], and has asked for every
    file after the first one it was waiting for. *)
Lemma assets_pass_log env t cb passed : forall w f todo oks file rest,
  tasks w !! t = Some (Suspended (CheckFetch cb f todo)) ->
  f :: todo = passed ++ file :: rest ->
  length oks = length passed ->
  Forall (fun res => ok res = true) oks ->
  let w' := run env (map (fun res => Resume t (Fulfilled (VResponse res))) oks) w in
  tasks w' = <[t := Suspended (CheckFetch cb file rest)]> (tasks w) /\
  this (rt w') = this (rt w) /\
  engines (rt w') = engines (rt w) /\
  log (rt w') = log (rt w)
                ++ map (fun g => FetchHead (asset_url (basePath (this (rt w))) g))
                     (tail (passed ++ [file])).
Proof.
  induction passed as [|p ps IH]; intros w f todo oks file rest Hl Hsplit Hlen Hok.
  - destruct oks; [|done]. simpl in *. simplify_eq.
    rewrite app_nil_r, list_insert_id by done. done.
  - destruct oks as [|res oks]; [done|]. simpl in Hsplit, Hlen. simplify_eq.
    apply Forall_cons in Hok as [Hres Hok].
    assert (t < length (tasks w)) as Hlt by (by eapply lookup_lt_Some).
    destruct (ps ++ file :: rest) as [|f' todo'] eqn:Hnext.
    { by destruct ps. }
    cbn [map]. rewrite run_cons.
    assert (step env (Resume t (Fulfilled (VResponse res))) w
            = {| rt := emit (FetchHead (asset_url (basePath (this (rt w))) f')) (rt w);
                 tasks := <[t := Suspended (CheckFetch cb f' todo')]> (tasks w) |}) as ->.
    { simpl. rewrite Hl. simpl. by rewrite Hres. }
    edestruct (IH {| rt := emit (FetchHead (asset_url (basePath (this (rt w))) f')) (rt w);
                     tasks := <[t := Suspended (CheckFetch cb f' todo')]> (tasks w) |}
                 f' todo' oks file rest) as (H1 & H2 & H3 & H4); try done.
    { simpl. by apply list_lookup_insert_eq. }
    split; [by rewrite H1; simpl; rewrite list_insert_insert_eq|].
    split; [done|]. split; [done|].
    rewrite H4. cbn [rt emit log this]. rewrite <- app_assoc. f_equal.
    assert (tail ((p :: ps) ++ [file]) = f' :: tail (ps ++ [file])) as ->; [|done].
    destruct ps as [|p' ps]; simpl in *; by simplify_eq.
Qed.

(** The last asset is found: the loop ends without another request. *)
Lemma last_asset_passes env t cb file res w :
  tasks w !! t = Some (Suspended (CheckFetch cb file [])) ->
  ok res = true ->
  step env (Resume t (Fulfilled (VResponse res))) w
  = {| rt := rt w; tasks := <[t := Suspended (CheckPassed cb)]> (tasks w) |}.
Proof. intros Hl Hres. unfold step. rewrite Hl. simpl. by rewrite Hres. Qed.

(** The first turn of a call that runs the body. *)
Lemma initialize_body_facts env cb w :
  lacking env = false ->
  initialized (this (rt w)) = false ->
  initializing (this (rt w)) = false ->
  let w' := step env (Call (Initialize cb)) w in
  tasks w' = tasks w ++ [Suspended (CheckFetch cb "soffice.wasm"
                ["soffice.data"; "soffice.js"; "soffice.worker.js";
                 "browser.worker.global.js"])] /\
  this (rt w') = set_initializing true (this (rt w)) /\
  engines (rt w') = engines (rt w) /\
  fetched (log (rt w')) = fetched (log (rt w))
                          ++ [asset_url (basePath (this (rt w))) "soffice.wasm"] /\
  built (log (rt w')) = built (log (rt w)) /\
  boots (log (rt w')) = boots (log (rt w)).
Proof.
  intros Henv Hd Hg w'. subst w'. rewrite (initialize_body env cb w Henv Hd Hg).
  cbn [rt tasks emit this engines log]. rewrite notify_this.
  rewrite fetched_snoc, built_snoc, boots_snoc, app_nil_r, Nat.add_0_r.
  destruct (notify_log cb checking (set_this (set_initializing true) (rt w)))
    as (-> & -> & -> & ->). by repeat split.
Qed.

(** The turn that builds the engine. *)
Lemma engine_started_facts env t cb w :
  tasks w !! t = Some (Suspended (CheckPassed cb)) ->
  let h := length (engines (rt w)) in
  let w' := step env (Resume t tick) w in
  tasks w' = <[t := Suspended (Booting cb h)]> (tasks w) /\
  this (rt w') = set_converter (Some h) (this (rt w)) /\
  engines (rt w') = engines (rt w)
                    ++ [{| options := engine_options (basePath (this (rt w)));
                           progressCallback := cb |}] /\
  fetched (log (rt w')) = fetched (log (rt w)) /\
  built (log (rt w')) = built (log (rt w)) ++ [h] /\
  boots (log (rt w')) = boots (log (rt w)) + 1.
Proof.
  intros Hl h w'. subst w' h. rewrite (engine_started env t cb w Hl).
  destruct w as [r ts]. cbn [rt tasks]. clear Hl.
  destruct cb; cbn -[boots fetched built engine_options];
    rewrite ?fetched_snoc, ?built_snoc, ?boots_snoc;
    cbn -[boots fetched built engine_options];
    rewrite ?app_nil_r, ?Nat.add_0_r; by repeat split.
Qed.

(** The turn in which the boot succeeds. *)
Lemma boot_succeeded_facts env t cb h v e w :
  tasks w !! t = Some (Suspended (Booting cb h)) ->
  engines (rt w) !! h = Some e ->
  let w' := step env (Resume t (Fulfilled v)) w in
  tasks w' = <[t := Done Returned]> (tasks w) /\
  this (rt w') = set_initializing false (set_initialized true (this (rt w))) /\
  engines (rt w') = <[h := {| options := options e; progressCallback := None |}]>
                      (engines (rt w)) /\
  fetched (log (rt w')) = fetched (log (rt w)) /\
  built (log (rt w')) = built (log (rt w)) /\
  boots (log (rt w')) = boots (log (rt w)).
Proof.
  intros Hl He w'. subst w'. rewrite (boot_succeeded env t cb h v w Hl).
  destruct w as [r ts]. cbn [rt tasks] in *. clear Hl.
  unfold finally_initialize, clear_progressCallback.
  destruct cb; cbn -[boots fetched built]; rewrite He;
    cbn -[boots fetched built];
    rewrite ?fetched_snoc, ?built_snoc, ?boots_snoc;
    cbn -[boots fetched built];
    rewrite ?app_nil_r, ?Nat.add_0_r; by repeat split.
Qed.

(** The five assets are found, one after the other. *)
Lemma assets_found env t cb w oks :
  tasks w !! t = Some (Suspended (CheckFetch cb "soffice.wasm"
            ["soffice.data"; "soffice.js"; "soffice.worker.js";
             "browser.worker.global.js"])) ->
  length oks = length files ->
  Forall (fun res => ok res = true) oks ->
  let w' := run env (map (fun res => Resume t (Fulfilled (VResponse res))) oks) w in
  tasks w' = <[t := Suspended (CheckPassed cb)]> (tasks w) /\
  this (rt w') = this (rt w) /\
  engines (rt w') = engines (rt w) /\
  fetched (log (rt w')) = fetched (log (rt w))
                          ++ map (asset_url (basePath (this (rt w))))
                               ["soffice.data"; "soffice.js"; "soffice.worker.js";
                                "browser.worker.global.js"] /\
  built (log (rt w')) = built (log (rt w)) /\
  boots (log (rt w')) = boots (log (rt w)).
Proof.
  intros Hl Hlen Hok w'. subst w'.
  destruct oks as [|r1 [|r2 [|r3 [|r4 [|r5 [|]]]]]]; try done.
  assert (Forall (fun res => ok res = true) [r1; r2; r3; r4] /\ ok r5 = true) as [Hok4 Hok5].
  { repeat (apply Forall_cons in Hok as [? Hok]). split; [by repeat constructor | done]. }
  change (map (fun res => Resume t (Fulfilled (VResponse res))) [r1; r2; r3; r4; r5])
    with (map (fun res => Resume t (Fulfilled (VResponse res))) [r1; r2; r3; r4]
          ++ [Resume t (Fulfilled (VResponse r5))]).
  rewrite run_app.
  destruct (assets_pass_log env t cb
              ["soffice.wasm"; "soffice.data"; "soffice.js"; "soffice.worker.js"]
              w _ _ [r1; r2; r3; r4] "browser.worker.global.js" [] Hl eq_refl eq_refl Hok4)
    as (Ht1 & Hth1 & He1 & Hlog1).
  assert (t < length (tasks w)) as Hlt by (by eapply lookup_lt_Some).
  set (w1 := run env (map _ [r1; r2; r3; r4]) w) in *. clearbody w1.
  change (run env [Resume t (Fulfilled (VResponse r5))] w1)
    with (step env (Resume t (Fulfilled (VResponse r5))) w1).
  assert (tasks w1 !! t = Some (Suspended (CheckFetch cb "browser.worker.global.js" [])))
    as Hl1 by (rewrite Ht1; by apply list_lookup_insert_eq).
  rewrite (last_asset_passes env t cb _ r5 w1 Hl1 Hok5). cbn [rt tasks].
  rewrite Ht1, list_insert_insert_eq, Hth1, He1, Hlog1.
  rewrite fetched_app, built_app, boots_app.
  rewrite (fetched_requests (asset_url (basePath (this (rt w))))),
    (built_requests (asset_url (basePath (this (rt w))))),
    (boots_requests (asset_url (basePath (this (rt w))))).
  rewrite app_nil_r, Nat.add_0_r. by repeat split.
Qed.

(** A whole successful run of [initialize], turn by turn. *)
Lemma initialize_run env w cb oks v :
  lacking env = false ->
  initialized (this (rt w)) = false ->
  initializing (this (rt w)) = false ->
  length oks = length files ->
  Forall (fun res => ok res = true) oks ->
  let t := length (tasks w) in
  let h := length (engines (rt w)) in
  let base := basePath (this (rt w)) in
  let w' := run env (Call (Initialize cb)
                     :: map (fun res => Resume t (Fulfilled (VResponse res))) oks
                     ++ [Resume t tick; Resume t (Fulfilled v)]) w in
  tasks w' = tasks w ++ [Done Returned] /\
  this (rt w') = {| converter := Some h; initialized := true; initializing := false;
                    basePath := base |} /\
  engines (rt w') = engines (rt w)
                    ++ [{| options := engine_options base; progressCallback := None |}] /\
  fetched (log (rt w')) = fetched (log (rt w)) ++ map (asset_url base) files /\
  built (log (rt w')) = built (log (rt w)) ++ [h] /\
  boots (log (rt w')) = boots (log (rt w)) + 1.
Proof.
  intros Henv Hd Hg Hlen Hok t h base w'. subst w'.
  rewrite run_cons, run_app.
  change (run env [Resume t tick; Resume t (Fulfilled v)] ?x)
    with (step env (Resume t (Fulfilled v)) (step env (Resume t tick) x)).
  (* the call *)
  destruct (initialize_body_facts env cb w Henv Hd Hg) as (Ht0 & Hth0 & He0 & Hf0 & Hb0 & Hn0).
  set (w0 := step env (Call (Initialize cb)) w) in *. clearbody w0.
  assert (tasks w0 !! t = Some (Suspended (CheckFetch cb "soffice.wasm"
            ["soffice.data"; "soffice.js"; "soffice.worker.js";
             "browser.worker.global.js"]))) as Hl0.
  { rewrite Ht0. by apply list_lookup_middle. }
  (* the assets *)
  destruct (assets_found env t cb w0 oks Hl0 Hlen Hok) as (Ht1 & Hth1 & He1 & Hf1 & Hb1 & Hn1).
  set (w1 := run env (map _ oks) w0) in *. clearbody w1.
  assert (tasks w1 !! t = Some (Suspended (CheckPassed cb))) as Hl1.
  { rewrite Ht1. apply list_lookup_insert_eq. by eapply lookup_lt_Some. }
  (* the engine *)
  destruct (engine_started_facts env t cb w1 Hl1) as (Ht2 & Hth2 & He2 & Hf2 & Hb2 & Hn2).
  set (w2 := step env (Resume t tick) w1) in *. clearbody w2.
  assert (tasks w2 !! t = Some (Suspended (Booting cb h))) as Hl2.
  { rewrite Ht2, He1, He0. apply list_lookup_insert_eq. by eapply lookup_lt_Some. }
  assert (engines (rt w2) !! h
          = Some {| options := engine_options (basePath (this (rt w1)));
                    progressCallback := cb |}) as Hh2.
  { rewrite He2, He1, He0. by apply list_lookup_middle. }
  (* the boot *)
  destruct (boot_succeeded_facts env t cb h v _ w2 Hl2 Hh2)
    as (Ht3 & Hth3 & He3 & Hf3 & Hb3 & Hn3).
  set (w3 := step env (Resume t (Fulfilled v)) w2) in *. clearbody w3.
  split; [|split; [|split; [|split; [|split]]]].
  - rewrite Ht3, Ht2, Ht1, Ht0, !list_insert_insert_eq. subst t.
    rewrite insert_app_r_alt by done. by rewrite Nat.sub_diag.
  - rewrite Hth3, Hth2, Hth1, Hth0, He1, He0. done.
  - rewrite He3, He2, He1, He0, Hth1, Hth0.
    rewrite insert_app_r_alt by done. by rewrite Nat.sub_diag.
  - rewrite Hf3, Hf2, Hf1, Hf0, Hth0, <- app_assoc. done.
  - rewrite Hb3, Hb2, Hb1, Hb0, He1, He0. done.
  - rewrite Hn3, Hn2, Hn1, Hn0. done.
Qed.

(** X1: on a page that passes the environment check, a call of
    [initialize] on a converter that is neither initialized nor initializing,
    whose five asset requests are answered with success and whose engine
    boots, returns normally and leaves the converter ready with the new
    engine as its handle.  On the way it has issued exactly the five HEAD
    requests, in the order of the [files] array, built exactly one engine and
    started its boot once; and the five URLs in the options of that engine
    are the five URLs it has checked. *)
Theorem successful_initialize_checks_then_builds env w cb oks v :
  lacking env = false ->
  initialized (this (rt w)) = false ->
  initializing (this (rt w)) = false ->
  length oks = length files ->
  Forall (fun res => ok res = true) oks ->
  let t := length (tasks w) in
  let h := length (engines (rt w)) in
  let base := basePath (this (rt w)) in
  let w' := run env (Call (Initialize cb)
                     :: map (fun res => Resume t (Fulfilled (VResponse res))) oks
                     ++ [Resume t tick; Resume t (Fulfilled v)]) w in
  tasks w' !! t = Some (Done Returned) /\
  isReady (this (rt w')) = true /\
  initializing (this (rt w')) = false /\
  converter (this (rt w')) = Some h /\
  fetched (log (rt w')) = fetched (log (rt w)) ++ map (asset_url base) files /\
  built (log (rt w')) = built (log (rt w)) ++ [h] /\
  boots (log (rt w')) = boots (log (rt w)) + 1 /\
  exists e, engines (rt w') !! h = Some e /\
            progressCallback e = None /\
            option_urls (options e) = map (asset_url base) files.
Proof.
  intros Henv Hd Hg Hlen Hok t h base w'.
  destruct (initialize_run env w cb oks v Henv Hd Hg Hlen Hok)
    as (Ht & Hth & He & Hf & Hb & Hn).
  fold t h base w' in Ht, Hth, He, Hf, Hb, Hn. clearbody w'.
  split; [rewrite Ht; by apply list_lookup_middle|].
  rewrite Hth. cbn [isReady initialized initializing converter].
  split; [done|]. split; [done|]. split; [done|].
  split; [done|]. split; [done|]. split; [done|].
  exists {| options := engine_options base; progressCallback := None |}.
  split; [rewrite He; by apply list_lookup_middle|]. done.
Qed.

(** The theorem at work: the first initialization of a fresh converter. *)
Lemma successful_initialize_checks_then_builds_witness :
  let w := fresh (Some "/office/") in
  let oks := replicate 5 {| status := 200; statusText := "OK" |} in
  let t := length (tasks w) in
  let h := length (engines (rt w)) in
  let base := basePath (this (rt w)) in
  let w' := run isolated (Call (Initialize (Some 3))
                     :: map (fun res => Resume t (Fulfilled (VResponse res))) oks
                     ++ [Resume t tick; Resume t (Fulfilled VUndefined)]) w in
  tasks w' !! t = Some (Done Returned) /\
  isReady (this (rt w')) = true /\
  initializing (this (rt w')) = false /\
  converter (this (rt w')) = Some h /\
  fetched (log (rt w')) = fetched (log (rt w)) ++ map (asset_url base) files /\
  built (log (rt w')) = built (log (rt w)) ++ [h] /\
  boots (log (rt w')) = boots (log (rt w)) + 1 /\
  exists e, engines (rt w') !! h = Some e /\
            progressCallback e = None /\
            option_urls (options e) = map (asset_url base) files.
Proof.
  apply (successful_initialize_checks_then_builds isolated (fresh (Some "/office/"))
           (Some 3) (replicate 5 {| status := 200; statusText := "OK" |}) VUndefined).
  - reflexivity.
  - reflexivity.
  - reflexivity.
  - reflexivity.
  - repeat constructor.
Defined.

(* ===================================================================== *)
(** * Further properties: the asset checks stop at the first failure *)
(* ===================================================================== *)

Lemma check_failed_facts env t cb e w :
  tasks w !! t = Some (Suspended (CheckFailed cb e)) ->
  step env (Resume t tick) w
  = {| rt := finally_initialize (rt w); tasks := <[t := Done (Threw e)]> (tasks w) |}.
Proof. intros Hl. unfold step. by rewrite Hl. Qed.

Lemma asset_fails_facts env t cb file rest s err w :
  tasks w !! t = Some (Suspended (CheckFetch cb file rest)) ->
  asset_failure file s = Some err ->
  step env (Resume t s) w
  = {| rt := rt w; tasks := <[t := Suspended (CheckFailed cb err)]> (tasks w) |}.
Proof.
  intros Hl Hfail. unfold step. rewrite Hl. cbn [resume].
  by rewrite (asset_check_fails cb file rest s (rt w) err Hfail).
Qed.

(** X2: when the request for a required asset fails (a non-success status
    or a rejected request) after the assets before it were found, no request
    is issued for any asset after it: the requests of this call are exactly
    those for the assets up to and including the failing one, in order.  The
    boot of an engine is not started, the call ends with the error of the
    asset loop, and the fields of the converter are what they were before the
    call. *)
Theorem asset_checks_stop_at_first_failure env w cb passed file rest oks s err :
  lacking env = false ->
  initialized (this (rt w)) = false ->
  initializing (this (rt w)) = false ->
  files = passed ++ file :: rest ->
  length oks = length passed ->
  Forall (fun res => ok res = true) oks ->
  asset_failure file s = Some err ->
  let t := length (tasks w) in
  let base := basePath (this (rt w)) in
  let w' := run env (Call (Initialize cb)
                     :: map (fun res => Resume t (Fulfilled (VResponse res))) oks
                     ++ [Resume t s; Resume t tick]) w in
  tasks w' = tasks w ++ [Done (Threw err)] /\
  fetched (log (rt w')) = fetched (log (rt w)) ++ map (asset_url base) (passed ++ [file]) /\
  boots (log (rt w')) = boots (log (rt w)) /\
  engines (rt w') = engines (rt w) /\
  this (rt w') = this (rt w).
Proof.
  intros Henv Hd Hg Hfiles Hlen Hok Hfail t base w'. subst w'.
  rewrite run_cons, run_app.
  change (run env [Resume t s; Resume t tick] ?x)
    with (step env (Resume t tick) (step env (Resume t s) x)).
  destruct (initialize_body_facts env cb w Henv Hd Hg) as (Ht0 & Hth0 & He0 & Hf0 & Hb0 & Hn0).
  set (w0 := step env (Call (Initialize cb)) w) in *. clearbody w0.
  assert (tasks w0 !! t = Some (Suspended (CheckFetch cb "soffice.wasm"
            ["soffice.data"; "soffice.js"; "soffice.worker.js";
             "browser.worker.global.js"]))) as Hl0.
  { rewrite Ht0. by apply list_lookup_middle. }
  assert (t < length (tasks w0)) as Hlt by (by eapply lookup_lt_Some).
  destruct (assets_pass_log env t cb passed w0 _ _ oks file rest Hl0 Hfiles Hlen Hok)
    as (Ht1 & Hth1 & He1 & Hlog1).
  set (w1 := run env (map _ oks) w0) in *. clearbody w1.
  assert (tasks w1 !! t = Some (Suspended (CheckFetch cb file rest))) as Hl1.
  { rewrite Ht1. by apply list_lookup_insert_eq. }
  rewrite (asset_fails_facts env t cb file rest s err w1 Hl1 Hfail).
  rewrite (check_failed_facts env t cb err).
  2:{ cbn [tasks]. apply list_lookup_insert_eq. by rewrite Ht1, length_insert. }
  cbn [rt tasks]. unfold finally_initialize, set_this. cbn [this engines log].
  split; [|split; [|split; [|split]]].
  - rewrite Ht1, Ht0, !list_insert_insert_eq. subst t.
    rewrite insert_app_r_alt by done. by rewrite Nat.sub_diag.
  - rewrite Hlog1, fetched_app, Hf0, Hth0.
    rewrite (fetched_requests (asset_url (basePath (set_initializing true (this (rt w)))))).
    rewrite <- app_assoc. f_equal.
    unfold files in Hfiles. destruct passed as [|p ps]; simpl in Hfiles; by simplify_eq.
  - rewrite Hlog1, boots_app, Hn0.
    rewrite (boots_requests (asset_url (basePath (this (rt w0))))). lia.
  - by rewrite He1, He0.
  - rewrite Hth1, Hth0. destruct (this (rt w)) as [c d g b]. simpl in *. by subst.
Qed.

(** The theorem at work: the data bundle is missing. *)
Lemma asset_checks_stop_at_first_failure_witness :
  let w := fresh None in
  let oks := [{| status := 200; statusText := "OK" |}] in
  let s := answered 404 in
  let err := Error "Required file soffice.data returned HTTP 404" in
  let t := length (tasks w) in
  let base := basePath (this (rt w)) in
  let w' := run isolated (Call (Initialize None)
                     :: map (fun res => Resume t (Fulfilled (VResponse res))) oks
                     ++ [Resume t s; Resume t tick]) w in
  tasks w' = tasks w ++ [Done (Threw err)] /\
  fetched (log (rt w')) = fetched (log (rt w))
                          ++ map (asset_url base) (["soffice.wasm"] ++ ["soffice.data"]) /\
  boots (log (rt w')) = boots (log (rt w)) /\
  engines (rt w') = engines (rt w) /\
  this (rt w') = this (rt w).
Proof.
  apply (asset_checks_stop_at_first_failure isolated (fresh None) None
           ["soffice.wasm"] "soffice.data"
           ["soffice.js"; "soffice.worker.js"; "browser.worker.global.js"]
           [{| status := 200; statusText := "OK" |}] (answered 404)
           (Error "Required file soffice.data returned HTTP 404")).
  - reflexivity.
  - reflexivity.
  - reflexivity.
  - reflexivity.
  - reflexivity.
  - repeat constructor.
  - reflexivity.
Defined.

(* ===================================================================== *)
(** * Further properties: engines and requests *)
(* ===================================================================== *)

Lemma checks_app ts1 ts2 : checks (ts1 ++ ts2) = checks ts1 + checks ts2.
Proof. apply sum_list_with_app. Qed.

Lemma checks_insert ts t old new :
  ts !! t = Some old ->
  checks (<[t := new]> ts) + checked old = checks ts + checked new.
Proof.
  intros Hl.
  assert (t < length ts) as Hlt by (by eapply lookup_lt_Some).
  rewrite insert_take_drop by done.
  pose proof (f_equal checks (take_drop_middle ts t old Hl)) as E.
  rewrite checks_app in E. rewrite checks_app.
  change (checks (old :: drop (S t) ts)) with (checked old + checks (drop (S t) ts)) in E.
  change (checks (new :: drop (S t) ts)) with (checked new + checks (drop (S t) ts)).
  lia.
Qed.

Ltac count_tac :=
  cases_tac; unfold paid in *; cbn [rt tasks log emit] in *;
  rewrite ?checks_app, ?fetched_snoc, ?built_snoc, ?length_app in *;
  simpl in *; rewrite ?fetched_snoc, ?built_snoc, ?length_app in *; simpl in *;
  try lia.

Lemma step_paid env l w : paid w -> paid (step env l w).
Proof.
  destruct w as [[o es lg] ts]. intros Hp.
  destruct l as [[cb|file fmt|]|t s|h info].
  - simpl. unfold initialize, checkEnvironment, notify. count_tac.
  - simpl. unfold convert. count_tac.
  - simpl. unfold destroy. count_tac.
  - simpl. destruct (ts !! t) as [[k|]|] eqn:Hl; try done.
    destruct (resume k s _) as [[r tk]|] eqn:E; [|done].
    pose proof (checks_insert _ _ _ tk Hl) as Hins.
    destruct k; simpl in E;
      unfold poll_answer, check_failed, asset_answer, start_engine, boot_answer,
        buffer_answer, convert_answer, destroy_answer, clear_progressCallback,
        next_asset, notify in E;
      revert E; cases_tac; intros E; simplify_eq; count_tac.
  - simpl. unfold onProgress. count_tac.
Qed.

(** X3: in every state a converter can reach, each engine that was ever
    built was preceded by five asset requests of its own: the number of HEAD
    requests issued is at least five times the number of engines built. *)
Theorem five_requests_for_every_engine env basePath ls :
  let w := run env ls (fresh basePath) in
  length files * length (built (log (rt w))) <= length (fetched (log (rt w))).
Proof.
  intros w. assert (paid w) as Hp.
  { apply (reachable_ind env paid).
    - intros bp. unfold paid. simpl. lia.
    - intros l w0. apply step_paid.
    - by exists basePath, ls. }
  unfold paid in Hp. lia.
Qed.

Lemma engine_known_more n m (lg : list event) :
  n <= m ->
  Forall (fun e => match engine_of e with Some h => h < n | None => True end) lg ->
  Forall (fun e => match engine_of e with Some h => h < m | None => True end) lg.
Proof.
  intros Hnm H. eapply Forall_impl; [exact H|].
  intros e. simpl. destruct (engine_of e); [lia | done].
Qed.

Ltac tidy_tac :=
  cases_tac;
  split; cbn [rt tasks log emit this engines set_this set_engines set_converter
              set_initialized set_initializing converter] in *;
  rewrite ?built_snoc, ?length_app, ?length_insert, ?app_nil_r in *; simpl in *;
  rewrite ?built_snoc, ?length_app, ?length_insert, ?app_nil_r in *; simpl in *;
  try done;
  try (intros; simplify_eq; lia);
  repeat match goal with
    | |- Forall _ (_ ++ [_]) => apply Forall_snoc
    end;
  simpl; try done; try lia;
  try (eapply engine_known_more; [|eassumption]; lia);
  try (intros; match goal with
               | H : forall h, _ -> S h = _ |- _ => apply H; congruence
               end);
  try (match goal with
       | H : forall h, Some ?n = Some h -> S h = _ |- _ => specialize (H n eq_refl)
       end; lia);
  try (match goal with
       | H : built _ = seq 0 _ |- _ ++ [_] = seq 0 (_ + 1) =>
           rewrite Nat.add_1_r, seq_S, H; reflexivity
       end).

Lemma step_tidy env l w : tidy w -> tidy (step env l w).
Proof.
  destruct w as [[o es lg] ts]. intros [Hb Hh He]. simpl in *.
  destruct l as [[cb|file fmt|]|t s|h info].
  - simpl. unfold initialize, checkEnvironment, notify. tidy_tac.
  - simpl. unfold convert. tidy_tac.
  - simpl. unfold destroy. tidy_tac.
  - simpl. destruct (ts !! t) as [[k|]|] eqn:Hl; try done.
    destruct (resume k s _) as [[r tk]|] eqn:E; [|done].
    destruct k; simpl in E;
      unfold poll_answer, check_failed, asset_answer, start_engine, boot_answer,
        buffer_answer, convert_answer, destroy_answer, clear_progressCallback,
        next_asset, notify in E;
      revert E; cases_tac; intros E; simplify_eq; tidy_tac.
  - simpl. unfold onProgress. tidy_tac.
Qed.

Lemma reachable_tidy env w : reachable env w -> tidy w.
Proof.
  apply reachable_ind; [|intros; by apply step_tidy].
  intros bp. split; simpl; try done.
Qed.

(** X4: in every state a converter can reach, the engines were built in
    order and nothing in the log speaks of an engine that was not built: the
    engine's [initialize], [convert] and [destroy] are only ever called on an
    engine [initialize] has constructed; and the handle of the converter,
    when it is set, is the engine built last. *)
Theorem handle_is_the_last_engine_built env basePath ls :
  let w := run env ls (fresh basePath) in
  built (log (rt w)) = seq 0 (length (engines (rt w))) /\
  (forall h, converter (this (rt w)) = Some h -> S h = length (engines (rt w))) /\
  (forall e h, In e (log (rt w)) -> engine_of e = Some h -> In h (built (log (rt w)))).
Proof.
  intros w. assert (tidy w) as [Hb Hh He].
  { apply (reachable_tidy env). by exists basePath, ls. }
  split; [done|]. split; [done|].
  intros e h Hin Heng. rewrite Hb. apply in_seq.
  rewrite Forall_forall in He. apply list_elem_of_In in Hin.
  specialize (He e Hin). rewrite Heng in He. lia.
Qed.

(* ===================================================================== *)
(** * Further properties: convert *)
(* ===================================================================== *)

(** X5: no turn of [convert] writes a field of the converter or touches
    the engine table: neither the call itself nor any of its continuations,
    whatever the file read or the engine answers.  A failed conversion leaves
    the converter as it was. *)
Theorem convert_keeps_the_converter env w :
  (forall file outputFormat,
      let w' := step env (Call (Convert file outputFormat)) w in
      this (rt w') = this (rt w) /\ engines (rt w') = engines (rt w)) /\
  (forall t k s,
      tasks w !! t = Some (Suspended k) ->
      of_convert k = true ->
      let w' := step env (Resume t s) w in
      this (rt w') = this (rt w) /\ engines (rt w') = engines (rt w)).
Proof.
  split.
  - intros file fmt w'. subst w'. simpl. unfold convert.
    by destruct (converter (this (rt w))).
  - intros t k s Hl Hk w'. subst w'. unfold step. rewrite Hl.
    destruct k; try done; cbn [resume].
    + unfold buffer_answer.
      destruct s as [[| | bytes |]|]; try done.
      by destruct (converter (this (rt w))).
    + unfold convert_answer. by destruct s as [[| | |]|].
Qed.

(** X6: with an engine handle [h], [convert] on a file with an ASCII name
    reads the file, then calls the engine's [convert] exactly once, on [h],
    with the bytes read, the requested output format, the input format
    derived from the file name and the file name itself.  When the engine
    answers with a result the call returns a blob with the result's bytes,
    whose type is the result's MIME type as the [Blob] constructor normalises
    it: in lower case, and empty when it has a character outside U+0020 to
    U+007E.  When the engine rejects, the call fails with the engine's error;
    when reading the file fails, the call fails with that error and the
    engine is not called. *)
Theorem convert_calls_the_engine_once env w h file outputFormat bytes :
  converter (this (rt w)) = Some h ->
  all_ascii (name file) = true ->
  let t := length (tasks w) in
  let w1 := run env [Call (Convert file outputFormat);
                     Resume t (Fulfilled (VBuffer bytes))] w in
  tasks w1 !! t = Some (Suspended (Converting file)) /\
  log (rt w1) = log (rt w)
                ++ [EngineConvert h bytes outputFormat (ext (name file)) (name file)] /\
  (forall res,
      let w2 := step env (Resume t (Fulfilled (VConverted res))) w1 in
      tasks w2 !! t
      = Some (Done (ReturnedBlob
                {| blob_data := data res;
                   blob_type := if all_printable (mimeType res)
                                then toLowerCase (mimeType res) else "" |})) /\
      rt w2 = rt w1) /\
  (forall e,
      let w2 := step env (Resume t (Rejected e)) w1 in
      tasks w2 !! t = Some (Done (Threw e)) /\ rt w2 = rt w1) /\
  (forall e,
      let w1' := run env [Call (Convert file outputFormat); Resume t (Rejected e)] w in
      tasks w1' !! t = Some (Done (Threw e)) /\ rt w1' = rt w).
Proof.
  intros Hc _ t w1.
  assert (step env (Call (Convert file outputFormat)) w
          = {| rt := rt w; tasks := tasks w ++ [Suspended (ReadingFile file outputFormat)] |})
    as Hcall.
  { simpl. unfold convert. by rewrite Hc. }
  assert (w1 = {| rt := emit (EngineConvert h bytes outputFormat (ext (name file)) (name file))
                          (rt w);
                  tasks := tasks w ++ [Suspended (Converting file)] |}) as ->.
  { subst w1. unfold run. cbn [foldl]. rewrite Hcall. unfold step. cbn [tasks rt].
    rewrite list_lookup_middle by done. cbn [resume]. unfold buffer_answer.
    rewrite Hc. subst t. rewrite insert_app_r_alt by done. by rewrite Nat.sub_diag. }
  cbn [tasks rt].
  split; [by apply list_lookup_middle|]. split; [done|].
  split; [|split].
  - intros res. cbv zeta. unfold step. cbn [tasks rt].
    rewrite list_lookup_middle by done. cbn [resume convert_answer tasks rt].
    split; [|done]. unfold new_Blob.
    apply list_lookup_insert_eq. rewrite length_app. simpl. lia.
  - intros e. cbv zeta. unfold step. cbn [tasks rt].
    rewrite list_lookup_middle by done. cbn [resume convert_answer tasks rt].
    split; [|done]. apply list_lookup_insert_eq. rewrite length_app. simpl. lia.
  - intros e. cbv zeta. unfold run. cbn [foldl]. rewrite Hcall.
    unfold step. cbn [tasks rt].
    rewrite list_lookup_middle by done. cbn [resume buffer_answer tasks rt].
    split; [|done]. apply list_lookup_insert_eq. rewrite length_app. simpl. lia.
Qed.

(** The theorem at work: a conversion on a converter that has booted. *)
Lemma convert_calls_the_engine_once_witness :
  let w := run isolated (booted None) (fresh None) in
  let file := {| name := "Slides.PPTX"; type := ""; size := 2 |} in
  let bytes := [Byte.x01; Byte.x02] in
  let t := length (tasks w) in
  let w1 := run isolated [Call (Convert file "pdf");
                          Resume t (Fulfilled (VBuffer bytes))] w in
  tasks w1 !! t = Some (Suspended (Converting file)) /\
  log (rt w1) = log (rt w)
                ++ [EngineConvert 0 bytes "pdf" "pptx" "Slides.PPTX"] /\
  (forall res,
      let w2 := step isolated (Resume t (Fulfilled (VConverted res))) w1 in
      tasks w2 !! t
      = Some (Done (ReturnedBlob
                {| blob_data := data res;
                   blob_type := if all_printable (mimeType res)
                                then toLowerCase (mimeType res) else "" |})) /\
      rt w2 = rt w1) /\
  (forall e,
      let w2 := step isolated (Resume t (Rejected e)) w1 in
      tasks w2 !! t = Some (Done (Threw e)) /\ rt w2 = rt w1) /\
  (forall e,
      let w1' := run isolated [Call (Convert file "pdf"); Resume t (Rejected e)] w in
      tasks w1' !! t = Some (Done (Threw e)) /\ rt w1' = rt w).
Proof.
  apply (convert_calls_the_engine_once isolated
           (run isolated (booted None) (fresh None)) 0
           {| name := "Slides.PPTX"; type := ""; size := 2 |} "pdf"
           [Byte.x01; Byte.x02]).
  - reflexivity.
  - reflexivity.
Defined.

(** X7: [convert] reads [this.converter] again after the file was read.
    When [destroy] is called and completes while the file is being read, the
    conversion fails without calling the engine's [convert]: the only engine
    call in between is the shutdown. *)
Theorem convert_after_destroy_skips_the_engine env w h file outputFormat bytes v :
  converter (this (rt w)) = Some h ->
  let t := length (tasks w) in
  let w' := run env [Call (Convert file outputFormat);
                     Call Destroy;
                     Resume (S t) (Fulfilled v);
                     Resume t (Fulfilled (VBuffer bytes))] w in
  (exists e, tasks w' = tasks w ++ [Done (Threw e); Done Returned]) /\
  log (rt w') = log (rt w) ++ [EngineDestroy h] /\
  converter (this (rt w')) = None /\
  initialized (this (rt w')) = false.
Proof.
  intros Hc t w'. subst w'.
  change (run env [?a; ?b; ?c; ?d] w)
    with (step env d (step env c (step env b (step env a w)))).
  set (ts2 := tasks w ++ [Suspended (ReadingFile file outputFormat); Suspended Destroying]).
  set (ts3 := tasks w ++ [Suspended (ReadingFile file outputFormat); Done Returned]).
  assert (ts2 !! S t = Some (Suspended Destroying)) as Hl2.
  { subst ts2 t. rewrite lookup_app_r by lia.
    replace (S (length (tasks w)) - length (tasks w)) with 1 by lia. done. }
  assert (<[S t := Done Returned]> ts2 = ts3) as Hi2.
  { subst ts2 ts3 t. rewrite insert_app_r_alt by lia.
    replace (S (length (tasks w)) - length (tasks w)) with 1 by lia. done. }
  assert (ts3 !! t = Some (Suspended (ReadingFile file outputFormat))) as Hl3.
  { subst ts3 t. by apply list_lookup_middle. }
  assert (<[t := Done (Threw null_converter_error)]> ts3
          = tasks w ++ [Done (Threw null_converter_error); Done Returned]) as Hi3.
  { subst ts3 t. rewrite insert_app_r_alt by lia. by rewrite Nat.sub_diag. }
  assert (step env (Call (Convert file outputFormat)) w
          = {| rt := rt w; tasks := tasks w ++ [Suspended (ReadingFile file outputFormat)] |})
    as ->.
  { simpl. unfold convert. by rewrite Hc. }
  assert (step env (Call Destroy)
            {| rt := rt w; tasks := tasks w ++ [Suspended (ReadingFile file outputFormat)] |}
          = {| rt := emit (EngineDestroy h) (rt w); tasks := ts2 |}) as ->.
  { simpl. unfold destroy. rewrite Hc. subst ts2. by rewrite <- app_assoc. }
  assert (step env (Resume (S t) (Fulfilled v))
            {| rt := emit (EngineDestroy h) (rt w); tasks := ts2 |}
          = {| rt := clear_handle (emit (EngineDestroy h) (rt w)); tasks := ts3 |}) as ->.
  { unfold step. cbn [tasks rt]. rewrite Hl2. cbn [resume destroy_answer]. by rewrite Hi2. }
  assert (step env (Resume t (Fulfilled (VBuffer bytes)))
            {| rt := clear_handle (emit (EngineDestroy h) (rt w)); tasks := ts3 |}
          = {| rt := clear_handle (emit (EngineDestroy h) (rt w));
               tasks := tasks w ++ [Done (Threw null_converter_error); Done Returned] |}) as ->.
  { unfold step. cbn [tasks rt]. rewrite Hl3. cbn [resume]. unfold buffer_answer.
    cbn [clear_handle emit set_this this converter set_initialized set_converter].
    by rewrite Hi3. }
  cbn [tasks rt]. split; [by exists null_converter_error | done].
Qed.

(** The theorem at work: a converter that has booted. *)
Lemma convert_after_destroy_skips_the_engine_witness :
  let w := run isolated (booted None) (fresh None) in
  let file := {| name := "a.docx"; type := ""; size := 0 |} in
  let t := length (tasks w) in
  let w' := run isolated [Call (Convert file "pdf");
                          Call Destroy;
                          Resume (S t) (Fulfilled VUndefined);
                          Resume t (Fulfilled (VBuffer []))] w in
  (exists e, tasks w' = tasks w ++ [Done (Threw e); Done Returned]) /\
  log (rt w') = log (rt w) ++ [EngineDestroy 0] /\
  converter (this (rt w')) = None /\
  initialized (this (rt w')) = false.
Proof.
  apply (convert_after_destroy_skips_the_engine isolated
           (run isolated (booted None) (fresh None)) 0
           {| name := "a.docx"; type := ""; size := 0 |} "pdf" [] VUndefined).
  reflexivity.
Defined.

(* ===================================================================== *)
(** * Further properties: who receives progress *)
(* ===================================================================== *)

Ltac hears_tac :=
  cases_tac; (split; [|split]);
  cbn [rt tasks log emit this engines set_this set_engines] in *; simpl in *;
  repeat first [ apply Forall_snoc | apply Forall_insert
               | apply Forall_app; split ];
  simpl; try done; auto; try (by repeat constructor).

Lemma turn_only_hears env cb0 x w :
  only_hears cb0 w -> only_hears cb0 (step env (label_of x) w).
Proof.
  destruct w as [[o es lg] ts]. intros (Hlg & Hes & Hts). simpl in *.
  destruct x as [t s|h info]; simpl.
  - destruct (ts !! t) as [[k|]|] eqn:Hl; try (split; [|split]; done).
    destruct (resume k s _) as [[r tk]|] eqn:E; [|split; [|split]; done].
    pose proof (proj1 (Forall_lookup _ _) Hts t _ Hl) as Hk.
    destruct k; simpl in E, Hk; subst;
      unfold poll_answer, check_failed, asset_answer, start_engine, boot_answer,
        buffer_answer, convert_answer, destroy_answer, clear_progressCallback,
        next_asset, notify in E;
      revert E; cases_tac; intros E; simplify_eq; hears_tac.
  - unfold onProgress. simpl. destruct (es !! h) as [e|] eqn:He; [|split; [|split]; done].
    pose proof (proj1 (Forall_lookup _ _) Hes h _ He) as [Hn|Hc].
    + rewrite Hn. by (split; [|split]).
    + rewrite Hc. hears_tac.
Qed.

Lemma turns_only_hears env cb0 after w :
  only_hears cb0 w -> only_hears cb0 (run env (map label_of after) w).
Proof.
  revert w. induction after as [|x after IH]; intros w H; [done|].
  cbn [map]. rewrite run_cons. by apply IH, turn_only_hears.
Qed.

Lemma calls_only_hears env basePath cb0 cbs :
  let w := run env (map (fun cb => Call (Initialize cb)) (cb0 :: cbs)) (fresh basePath) in
  only_hears cb0 w /\
  initialized (this (rt w)) = false /\ initializing (this (rt w)) = true.
Proof.
  induction cbs as [|cb' cbs IH] using rev_ind.
  - unfold run, only_hears. simpl. unfold initialize, checkEnvironment. simpl.
    destruct (negb (crossOriginIsolated env) || negb (hasSharedArrayBuffer env)); simpl;
      rewrite ?notify_this; (split; [|done]);
      destruct cb0; simpl; (split; [|split]); by repeat constructor.
  - cbv zeta in IH |- *. rewrite app_comm_cons, map_app, run_app.
    destruct IH as ((Hlg & Hes & Hts) & Hd & Hg).
    set (w := run env (map _ (cb0 :: cbs)) (fresh basePath)) in *. clearbody w.
    change (run env (map _ [cb']) w) with (step env (Call (Initialize cb')) w).
    destruct w as [r ts]. simpl in *. unfold initialize. rewrite Hd, Hg. simpl.
    split; [|done]. split; [done|]. split; [done|].
    apply Forall_app. split; [done|]. by repeat constructor.
Qed.

(** X8: when several callers call [initialize] on a fresh converter before
    any of them is resumed, every progress event that is ever delivered
    (short of another call) goes to the callback of the first caller: the
    callbacks of the callers that found the initialization in flight are never
    invoked, and when the first caller passed no callback nobody hears of the
    progress. *)
Theorem progress_goes_to_the_first_caller env basePath cb0 cbs after :
  let w := run env (concurrent_initialize (cb0 :: cbs) after) (fresh basePath) in
  Forall (fun e => match hearer e with Some f => cb0 = Some f | None => True end)
    (log (rt w)) /\
  (cb0 = None -> forall f, received f (log (rt w)) = []).
Proof.
  intros w. subst w. unfold concurrent_initialize. rewrite run_app.
  destruct (calls_only_hears env basePath cb0 cbs) as (Hcalls & _).
  pose proof (turns_only_hears env cb0 after _ Hcalls) as (Hlg & _).
  split; [done|]. intros -> f. revert Hlg.
  generalize (log (rt (run env (map label_of after)
                         (run env (map (fun cb => Call (Initialize cb)) (None :: cbs))
                            (fresh basePath))))).
  intros lg Hlg. induction Hlg as [|e lg He Hlg IH]; [done|].
  unfold received in *. cbn [omap list_omap]. rewrite IH.
  destruct e; simpl in *; try done.
Qed.

(* ===================================================================== *)
(** * Further properties: where the requests go *)
(* ===================================================================== *)

Ltac list_tac :=
  cases_tac; (split; [|split]);
  cbn [rt tasks log emit this engines set_this set_engines basePath set_converter
       set_initialized set_initializing] in *;
  rewrite ?fetched_snoc, ?app_nil_r in *; simpl in *;
  rewrite ?fetched_snoc, ?app_nil_r in *; simpl in *;
  repeat first [ apply Forall_snoc | apply Forall_insert
               | apply Forall_app; split ];
  simpl; try done; auto;
  try (by repeat constructor; simpl; auto 10).

Lemma step_on_list env base l w : on_list base w -> on_list base (step env l w).
Proof.
  destruct w as [[[c d g b] es lg] ts]. intros (Hb & Hlg & Hts). simpl in *. subst b.
  destruct l as [[cb|file fmt|]|t s|h info].
  - simpl. unfold initialize, checkEnvironment, notify. list_tac;
      unfold asset_urls; apply in_map; simpl; auto.
  - simpl. unfold convert. list_tac.
  - simpl. unfold destroy. list_tac.
  - simpl. destruct (ts !! t) as [[k|]|] eqn:Hl; try (split; [|split]; done).
    destruct (resume k s _) as [[r tk]|] eqn:E; [|split; [|split]; done].
    pose proof (proj1 (Forall_lookup _ _) Hts t _ Hl) as Hk.
    destruct k; simpl in E, Hk;
      unfold poll_answer, check_failed, asset_answer, start_engine, boot_answer,
        buffer_answer, convert_answer, destroy_answer, clear_progressCallback,
        next_asset, notify in E;
      revert E; cases_tac; intros E; simplify_eq; list_tac;
      try (apply Forall_cons in Hk as [Hf Hk];
           first [ exact Hk | exact (in_map (asset_url base) files _ Hf) ]).
  - simpl. unfold onProgress. list_tac.
Qed.

(** X9: the base path of a converter is fixed by its constructor, the
    argument when it is a non-empty string and "/libreoffice-wasm/"
    otherwise, and no operation changes it; and every HEAD request the
    converter ever issues goes to one of the five asset files under that base
    path, with the version token as its query string. *)
Theorem requests_stay_under_the_base_path env path ls :
  let w := run env ls (fresh path) in
  let base := match path with
              | Some p => if String.eqb p "" then LIBREOFFICE_PATH else p
              | None => LIBREOFFICE_PATH
              end in
  basePath (this (rt w)) = base /\
  base <> "" /\
  Forall (fun url => exists file, In file files /\
                                  url = base +:+ file +:+ "?v=" +:+ ASSET_VERSION)
    (fetched (log (rt w))).
Proof.
  intros w base.
  assert (on_list base w) as (Hb & Hlg & _).
  { subst w. induction ls as [|l ls IH] using rev_ind.
    - split; [done|]. split; by constructor.
    - rewrite run_snoc. by apply step_on_list. }
  split; [done|]. split.
  - subst base. destruct path as [p|]; [|done].
    destruct (String.eqb p "") eqn:Hp; [done|]. by apply String.eqb_neq.
  - eapply Forall_impl; [exact Hlg|]. intros url Hin. cbv beta in Hin.
    unfold asset_urls in Hin. apply in_map_iff in Hin as (file & <- & Hfile).
    by exists file.
Qed.

(* ===================================================================== *)
(** * Further properties: the life cycle *)
(* ===================================================================== *)

Lemma clear_progressCallback_this h r : this (clear_progressCallback h r) = this r.
Proof. unfold clear_progressCallback. by destruct (engines r !! h). Qed.

Lemma destroy_run env w h v :
  converter (this (rt w)) = Some h ->
  run env [Call Destroy; Resume (length (tasks w)) (Fulfilled v)] w
  = {| rt := clear_handle (emit (EngineDestroy h) (rt w));
       tasks := tasks w ++ [Done Returned] |}.
Proof.
  intros Hc.
  change (run env [?a; ?b] w) with (step env b (step env a w)).
  assert (step env (Call Destroy) w
          = {| rt := emit (EngineDestroy h) (rt w);
               tasks := tasks w ++ [Suspended Destroying] |}) as ->.
  { simpl. unfold destroy. by rewrite Hc. }
  unfold step. cbn [tasks rt]. rewrite list_lookup_middle by done.
  cbn [resume destroy_answer]. rewrite insert_app_r_alt by done.
  by rewrite Nat.sub_diag.
Qed.

(** X10: once [initialized] is set, [initialize] returns at once and does
    nothing else, whatever callback it is given and however often it is
    called: no callback is invoked, no request is issued, no engine is built,
    no field changes. *)
Theorem initialize_is_idempotent env w cbs :
  initialized (this (rt w)) = true ->
  run env (map (fun cb => Call (Initialize cb)) cbs) w
  = {| rt := rt w; tasks := tasks w ++ replicate (length cbs) (Done Returned) |}.
Proof.
  intros Hd. revert w Hd. induction cbs as [|cb cbs IH]; intros w Hd.
  - simpl. rewrite app_nil_r. by destruct w.
  - cbn [map]. rewrite run_cons.
    assert (step env (Call (Initialize cb)) w
            = {| rt := rt w; tasks := tasks w ++ [Done Returned] |}) as ->.
    { simpl. unfold initialize. by rewrite Hd. }
    rewrite IH by done. cbn [rt tasks length replicate].
    by rewrite <- app_assoc.
Qed.

(** The theorem at work: three more calls on a converter that has booted. *)
Lemma initialize_is_idempotent_witness :
  let w := run isolated (booted (Some 1)) (fresh None) in
  run isolated (map (fun cb => Call (Initialize cb)) [Some 1; None; Some 2]) w
  = {| rt := rt w; tasks := tasks w ++ replicate 3 (Done Returned) |}.
Proof.
  apply (initialize_is_idempotent isolated
           (run isolated (booted (Some 1)) (fresh None)) [Some 1; None; Some 2]).
  reflexivity.
Defined.

(** X11: when [destroy] is called and completes while the engine is still
    booting, and the boot then succeeds, the converter is left with
    [initialized] set and no engine handle.  In that state [isReady()] is
    false, [convert] fails with "Converter not initialized", and [initialize]
    returns at once without building an engine: only another [destroy] gets
    the converter out of it. *)
Theorem destroy_during_boot_strands_the_converter env w t cb h h' v v' :
  tasks w !! t = Some (Suspended (Booting cb h)) ->
  converter (this (rt w)) = Some h' ->
  let d := length (tasks w) in
  let w' := run env [Call Destroy; Resume d (Fulfilled v); Resume t (Fulfilled v')] w in
  tasks w' !! t = Some (Done Returned) /\
  tasks w' !! d = Some (Done Returned) /\
  initialized (this (rt w')) = true /\
  converter (this (rt w')) = None /\
  isReady (this (rt w')) = false /\
  (forall cb',
      step env (Call (Initialize cb')) w'
      = {| rt := rt w'; tasks := tasks w' ++ [Done Returned] |}) /\
  (forall file outputFormat,
      step env (Call (Convert file outputFormat)) w'
      = {| rt := rt w'; tasks := tasks w' ++ [Done (Threw not_initialized_error)] |}).
Proof.
  intros Hl Hc d w'.
  assert (t < d) as Hlt by (by eapply lookup_lt_Some).
  assert (w' = step env (Resume t (Fulfilled v'))
                 (run env [Call Destroy; Resume d (Fulfilled v)] w)) as -> by done.
  subst d. rewrite (destroy_run env w h' v Hc).
  rewrite (boot_succeeded env t cb h v').
  2:{ cbn [tasks]. by rewrite lookup_app_l. }
  set (w' := {| rt := _; tasks := _ |}).
  assert (this (rt w') = set_initializing false (set_initialized true
                           (set_initialized false (set_converter None (this (rt w))))))
    as Hth.
  { subst w'. cbn [rt]. unfold finally_initialize. cbn [set_this this].
    by rewrite clear_progressCallback_this, notify_this. }
  assert (tasks w' = <[t := Done Returned]> (tasks w ++ [Done Returned])) as Ht by done.
  clearbody w'.
  split; [rewrite Ht; apply list_lookup_insert_eq; rewrite length_app; simpl; lia|].
  split.
  { rewrite Ht, list_lookup_insert_ne by lia. by apply list_lookup_middle. }
  split; [by rewrite Hth|]. split; [by rewrite Hth|]. split; [by rewrite Hth|].
  split.
  - intros cb'. simpl. unfold initialize. by rewrite Hth.
  - intros file fmt. simpl. unfold convert. by rewrite Hth.
Qed.

(** The theorem at work: [destroy] overtakes the first boot of a fresh
    converter. *)
Lemma destroy_during_boot_strands_the_converter_witness :
  let w := run isolated (until_boot None) (fresh None) in
  let d := length (tasks w) in
  let w' := run isolated [Call Destroy; Resume d (Fulfilled VUndefined);
                          Resume 0 (Fulfilled VUndefined)] w in
  tasks w' !! 0 = Some (Done Returned) /\
  tasks w' !! d = Some (Done Returned) /\
  initialized (this (rt w')) = true /\
  converter (this (rt w')) = None /\
  isReady (this (rt w')) = false /\
  (forall cb',
      step isolated (Call (Initialize cb')) w'
      = {| rt := rt w'; tasks := tasks w' ++ [Done Returned] |}) /\
  (forall file outputFormat,
      step isolated (Call (Convert file outputFormat)) w'
      = {| rt := rt w'; tasks := tasks w' ++ [Done (Threw not_initialized_error)] |}).
Proof.
  apply (destroy_during_boot_strands_the_converter isolated
           (run isolated (until_boot None) (fresh None)) 0 None 0 0 VUndefined VUndefined).
  - reflexivity.
  - reflexivity.
Defined.

(** X12: a converter with an engine handle and no initialization in flight
    can be destroyed and initialized again: after [destroy] has shut the old
    engine down and a new [initialize] has found the assets and booted, both
    calls have returned, the converter is ready again, and its handle is a
    newly built engine, not the one that was destroyed. *)
Theorem destroy_then_initialize_builds_a_new_engine env w h cb oks v v' :
  reachable env w ->
  lacking env = false ->
  initializing (this (rt w)) = false ->
  converter (this (rt w)) = Some h ->
  length oks = length files ->
  Forall (fun res => ok res = true) oks ->
  let d := length (tasks w) in
  let w' := run env ([Call Destroy; Resume d (Fulfilled v')]
                     ++ Call (Initialize cb)
                     :: map (fun res => Resume (S d) (Fulfilled (VResponse res))) oks
                     ++ [Resume (S d) tick; Resume (S d) (Fulfilled v)]) w in
  tasks w' = tasks w ++ [Done Returned; Done Returned] /\
  isReady (this (rt w')) = true /\
  converter (this (rt w')) = Some (S h) /\
  built (log (rt w')) = built (log (rt w)) ++ [S h] /\
  fetched (log (rt w'))
  = fetched (log (rt w)) ++ map (asset_url (basePath (this (rt w)))) files.
Proof.
  intros Hr Henv Hg Hc Hlen Hok d w'. subst w'.
  destruct (reachable_tidy env w Hr) as [_ Hh _]. specialize (Hh h Hc).
  rewrite run_app. subst d. rewrite (destroy_run env w h v' Hc).
  set (w0 := {| rt := _; tasks := _ |}).
  assert (length (tasks w0) = S (length (tasks w))) as Hlen0.
  { subst w0. cbn [tasks]. rewrite length_app. simpl. lia. }
  rewrite <- Hlen0.
  destruct (initialize_run env w0 cb oks v Henv eq_refl Hg Hlen Hok)
    as (Ht & Hth & He & Hf & Hb & Hn).
  set (w' := run env _ w0) in *. clearbody w'.
  split; [rewrite Ht; subst w0; cbn [tasks]; by rewrite <- app_assoc|].
  rewrite Hth, Hf, Hb. subst w0.
  cbn [isReady initialized converter rt clear_handle emit set_this engines log this basePath
       set_initialized set_converter].
  rewrite <- Hh, fetched_snoc, built_snoc, !app_nil_r. done.
Qed.

(** The theorem at work: the second life of a converter that has booted. *)
Lemma destroy_then_initialize_builds_a_new_engine_witness :
  let w := run isolated (booted None) (fresh None) in
  let oks := replicate 5 {| status := 204; statusText := "" |} in
  let d := length (tasks w) in
  let w' := run isolated ([Call Destroy; Resume d (Fulfilled VUndefined)]
                     ++ Call (Initialize None)
                     :: map (fun res => Resume (S d) (Fulfilled (VResponse res))) oks
                     ++ [Resume (S d) tick; Resume (S d) (Fulfilled VUndefined)]) w in
  tasks w' = tasks w ++ [Done Returned; Done Returned] /\
  isReady (this (rt w')) = true /\
  converter (this (rt w')) = Some (S 0) /\
  built (log (rt w')) = built (log (rt w)) ++ [S 0] /\
  fetched (log (rt w'))
  = fetched (log (rt w)) ++ map (asset_url (basePath (this (rt w)))) files.
Proof.
  apply (destroy_then_initialize_builds_a_new_engine isolated
           (run isolated (booted None) (fresh None)) 0 None
           (replicate 5 {| status := 204; statusText := "" |}) VUndefined VUndefined).
  - apply reachable_run, reachable_fresh.
  - reflexivity.
  - reflexivity.
  - reflexivity.
  - reflexivity.
  - repeat constructor.
Defined.

(* ===================================================================== *)
(** * Further properties: the input format *)
(* ===================================================================== *)

Lemma lower_facts c :
  is_upper (lower c) = false /\
  Ascii.eqb (lower c) "."%char = Ascii.eqb c "."%char /\
  lower (lower c) = lower c.
Proof. destruct c as [[] [] [] [] [] [] [] []]; vm_compute; done. Qed.

Lemma toLowerCase_no_upper s : has_upper (toLowerCase s) = false.
Proof.
  induction s as [|c s IH]; [done|]. simpl.
  destruct (lower_facts c) as (-> & _). done.
Qed.

Lemma toLowerCase_dot s : has_dot (toLowerCase s) = has_dot s.
Proof.
  induction s as [|c s IH]; [done|]. simpl.
  destruct (lower_facts c) as (_ & -> & _). by rewrite IH.
Qed.

Lemma toLowerCase_idempotent s : toLowerCase (toLowerCase s) = toLowerCase s.
Proof.
  induction s as [|c s IH]; [done|]. simpl.
  destruct (lower_facts c) as (_ & _ & ->). by rewrite IH.
Qed.

Lemma after_last_dot_dotless s :
  match after_last_dot s with
  | Some e => has_dot e = false
  | None => has_dot s = false
  end.
Proof.
  induction s as [|c s IH]; [done|]. simpl.
  destruct (after_last_dot s) as [e|]; [done|].
  destruct (Ascii.eqb c "."%char); simpl; done.
Qed.

Lemma after_last_dot_toLowerCase s :
  after_last_dot (toLowerCase s) = toLowerCase <$> after_last_dot s.
Proof.
  induction s as [|c s IH]; [done|]. simpl. rewrite IH.
  destruct (after_last_dot s) as [e|]; [done|]. simpl.
  destruct (lower_facts c) as (_ & -> & _).
  by destruct (Ascii.eqb c "."%char).
Qed.

Lemma lower_ascii c : is_ascii c = true -> is_ascii (lower c) = true.
Proof. destruct c as [[] [] [] [] [] [] [] []]; vm_compute; done. Qed.

Lemma toLowerCase_ascii s : all_ascii s = true -> all_ascii (toLowerCase s) = true.
Proof.
  induction s as [|c s IH]; [done|]. simpl.
  intros [Hc Hs]%andb_prop. by rewrite lower_ascii, IH.
Qed.

Lemma after_last_dot_ascii s :
  all_ascii s = true ->
  match after_last_dot s with
  | Some e => all_ascii e = true
  | None => True
  end.
Proof.
  induction s as [|c s IH]; [done|]. simpl.
  intros [Hc Hs]%andb_prop. specialize (IH Hs).
  destruct (after_last_dot s) as [e|]; [done|].
  by destruct (Ascii.eqb c "."%char).
Qed.

(** What [ext] gives, by cases on the file name. *)
Lemma ext_cases file_name :
  ext file_name = toLowerCase (default file_name (after_last_dot file_name)).
Proof.
  destruct (after_last_dot file_name) as [e|] eqn:H; simpl.
  - by apply ext_with_dot.
  - by apply ext_without_dot.
Qed.

(** X13: for a file name made of ASCII characters, the input format
    [convert] sends to the engine contains no dot and no upper-case letter,
    and it does not depend on the case of the file name: the name and its
    lower-cased form give the same input format. *)
Theorem ext_is_lower_case_without_dot file_name :
  all_ascii file_name = true ->
  has_dot (ext file_name) = false /\
  has_upper (ext file_name) = false /\
  all_ascii (ext file_name) = true /\
  ext (toLowerCase file_name) = ext file_name.
Proof.
  intros Hascii. rewrite !ext_cases. split; [|split; [|split]].
  - rewrite toLowerCase_dot. pose proof (after_last_dot_dotless file_name) as H.
    by destruct (after_last_dot file_name).
  - apply toLowerCase_no_upper.
  - apply toLowerCase_ascii.
    pose proof (after_last_dot_ascii file_name Hascii) as H.
    by destruct (after_last_dot file_name).
  - rewrite after_last_dot_toLowerCase.
    destruct (after_last_dot file_name); simpl; apply toLowerCase_idempotent.
Qed.

(** The theorem at work: a name in mixed case. *)
Lemma ext_is_lower_case_without_dot_witness :
  has_dot (ext "Annual.Report.DocX") = false /\
  has_upper (ext "Annual.Report.DocX") = false /\
  all_ascii (ext "Annual.Report.DocX") = true /\
  ext "annual.report.docx" = ext "Annual.Report.DocX".
Proof.
  apply (ext_is_lower_case_without_dot "Annual.Report.DocX"). reflexivity.
Defined.

(* ===================================================================== *)
(** * Further properties: engines that are left behind *)
(* ===================================================================== *)

Lemma shutdowns_snoc lg e :
  shutdowns (lg ++ [e]) = shutdowns lg + match e with EngineDestroy _ => 1 | _ => 0 end.
Proof. unfold shutdowns. rewrite omap_app, length_app. by destruct e. Qed.

Ltac shut_tac :=
  cases_tac; cbn [rt tasks log emit this engines set_this set_engines] in *;
  rewrite ?shutdowns_snoc; simpl; rewrite ?shutdowns_snoc; simpl; try done; try lia.

Lemma step_shutdowns env l w :
  no_destroy l -> shutdowns (log (rt (step env l w))) = shutdowns (log (rt w)).
Proof.
  destruct w as [[o es lg] ts]. intros Hl.
  destruct l as [[cb|file fmt|]|t s|h info].
  - simpl. unfold initialize, checkEnvironment, notify. shut_tac.
  - simpl. unfold convert. shut_tac.
  - done.
  - simpl. destruct (ts !! t) as [[k|]|] eqn:Hk; try done.
    destruct (resume k s _) as [[r tk]|] eqn:E; [|done].
    destruct k; simpl in E;
      unfold poll_answer, check_failed, asset_answer, start_engine, boot_answer,
        buffer_answer, convert_answer, destroy_answer, clear_progressCallback,
        next_asset, notify in E;
      revert E; cases_tac; intros E; simplify_eq; shut_tac.
  - simpl. unfold onProgress. shut_tac.
Qed.

Lemma shutdowns_of_snoc h lg e :
  shutdowns_of h (lg ++ [e])
  = shutdowns_of h lg + match e with
                        | EngineDestroy h' => if decide (h' = h) then 1 else 0
                        | _ => 0
                        end.
Proof.
  unfold shutdowns_of. rewrite omap_app, length_app. destruct e; try done.
  simpl. by destruct (decide (h0 = h)).
Qed.

Ltac replaced_tac :=
  cases_tac; cbn [rt tasks log emit this engines set_this set_engines] in *;
  rewrite ?shutdowns_of_snoc, ?length_app, ?length_insert; simpl;
  rewrite ?shutdowns_of_snoc, ?length_app, ?length_insert; simpl;
  split; try done; try lia.

(** An engine that is no longer the one built last is not shut down by any
    turn, and the engine table only grows. *)
Lemma step_replaced env l w h :
  tidy w -> S h < length (engines (rt w)) ->
  shutdowns_of h (log (rt (step env l w))) = shutdowns_of h (log (rt w)) /\
  length (engines (rt w)) <= length (engines (rt (step env l w))).
Proof.
  destruct w as [[o es lg] ts]. intros [_ Hh _] Hlt. simpl in *.
  destruct l as [[cb|file fmt|]|t s|h' info].
  - simpl. unfold initialize, checkEnvironment, notify. replaced_tac.
  - simpl. unfold convert. replaced_tac.
  - simpl. unfold destroy. simpl. destruct (converter o) as [h'|] eqn:Hc; simpl;
      [|split; [done | lia]].
    rewrite shutdowns_of_snoc. specialize (Hh h' eq_refl).
    rewrite decide_False by lia. split; lia.
  - simpl. destruct (ts !! t) as [[k|]|] eqn:Hk; try done.
    destruct (resume k s _) as [[r tk]|] eqn:E; [|done].
    destruct k; simpl in E;
      unfold poll_answer, check_failed, asset_answer, start_engine, boot_answer,
        buffer_answer, convert_answer, destroy_answer, clear_progressCallback,
        next_asset, notify in E;
      revert E; cases_tac; intros E; simplify_eq; replaced_tac.
  - simpl. unfold onProgress. replaced_tac.
Qed.

Lemma run_replaced env h ls : forall w,
  reachable env w -> S h < length (engines (rt w)) ->
  shutdowns_of h (log (rt (run env ls w))) = shutdowns_of h (log (rt w)).
Proof.
  induction ls as [|l ls IH]; intros w Hr Hlt; [done|].
  destruct (step_replaced env l w h (reachable_tidy env w Hr) Hlt) as [Hs Hlen].
  rewrite run_cons, IH, Hs; [done| |lia].
  by apply (reachable_run env [l]).
Qed.

(** X14: an engine is asked to shut down by a call of [destroy] and by
    nothing else, and [destroy] asks the engine that is in [this.converter] at
    that moment, the one built last, and no other.  Over any sequence of turns
    without a call of [destroy] ([initialize] retried after failures,
    conversions, progress events) the number of shutdown requests does not
    change; a call of [destroy] adds one request, for the current handle, or
    none when the handle is null; and an engine that a later [initialize] has
    replaced (so also one whose boot failed) is not shut down by anything that
    follows, not even by [destroy]. *)
Theorem only_destroy_shuts_an_engine_down env w ls :
  reachable env w ->
  (Forall no_destroy ls ->
   shutdowns (log (rt (run env ls w))) = shutdowns (log (rt w))) /\
  log (rt (step env (Call Destroy) w))
  = log (rt w) ++ match converter (this (rt w)) with
                  | Some h => [EngineDestroy h]
                  | None => []
                  end /\
  (forall h, converter (this (rt w)) = Some h -> S h = length (engines (rt w))) /\
  (forall h, S h < length (engines (rt w)) ->
             shutdowns_of h (log (rt (run env ls w))) = shutdowns_of h (log (rt w))).
Proof.
  intros Hr. split; [|split; [|split]].
  - clear Hr. revert w. induction ls as [|l ls IH]; intros w Hls; [done|].
    apply Forall_cons in Hls as [Hl Hls].
    rewrite run_cons, IH by done. by apply step_shutdowns.
  - simpl. unfold destroy. destruct (converter (this (rt w))); simpl; [done|].
    by rewrite app_nil_r.
  - by destruct (reachable_tidy env w Hr).
  - intros h Hlt. by apply run_replaced.
Qed.

(** The theorem at work: a boot fails, a retry succeeds and replaces the
    failed engine, and the converter is destroyed: the failed engine is left
    running. *)
Lemma only_destroy_shuts_an_engine_down_witness :
  let retry := Call (Initialize None)
               :: replicate 5 (Resume 1 (answered 200)) ++ [Resume 1 tick; Resume 1 tick] in
  let w := run isolated (boot_failed None ++ retry) (fresh None) in
  let ls := [Call Destroy; Resume 2 tick] in
  (Forall no_destroy ls ->
   shutdowns (log (rt (run isolated ls w))) = shutdowns (log (rt w))) /\
  log (rt (step isolated (Call Destroy) w))
  = log (rt w) ++ match converter (this (rt w)) with
                  | Some h => [EngineDestroy h]
                  | None => []
                  end /\
  (forall h, converter (this (rt w)) = Some h -> S h = length (engines (rt w))) /\
  (forall h, S h < length (engines (rt w)) ->
             shutdowns_of h (log (rt (run isolated ls w))) = shutdowns_of h (log (rt w))).
Proof.
  apply (only_destroy_shuts_an_engine_down isolated
           (run isolated
              (boot_failed None
               ++ Call (Initialize None)
                  :: replicate 5 (Resume 1 (answered 200)) ++ [Resume 1 tick; Resume 1 tick])
              (fresh None))
           [Call Destroy; Resume 2 tick]).
  apply reachable_run, reachable_fresh.
Defined.

(** A run of [initialize] as far as the engine's boot. *)
Lemma initialize_until_boot env w cb oks :
  lacking env = false ->
  initialized (this (rt w)) = false ->
  initializing (this (rt w)) = false ->
  length oks = length files ->
  Forall (fun res => ok res = true) oks ->
  let t := length (tasks w) in
  let h := length (engines (rt w)) in
  let w' := run env (Call (Initialize cb)
                     :: map (fun res => Resume t (Fulfilled (VResponse res))) oks
                     ++ [Resume t tick]) w in
  tasks w' = tasks w ++ [Suspended (Booting cb h)] /\
  this (rt w') = set_converter (Some h) (set_initializing true (this (rt w))) /\
  engines (rt w') = engines (rt w)
                    ++ [{| options := engine_options (basePath (this (rt w)));
                           progressCallback := cb |}].
Proof.
  intros Henv Hd Hg Hlen Hok t h w'. subst w'.
  rewrite run_cons, run_app.
  change (run env [Resume t tick] ?x) with (step env (Resume t tick) x).
  destruct (initialize_body_facts env cb w Henv Hd Hg) as (Ht0 & Hth0 & He0 & _).
  set (w0 := step env (Call (Initialize cb)) w) in *. clearbody w0.
  assert (tasks w0 !! t = Some (Suspended (CheckFetch cb "soffice.wasm"
            ["soffice.data"; "soffice.js"; "soffice.worker.js";
             "browser.worker.global.js"]))) as Hl0.
  { rewrite Ht0. by apply list_lookup_middle. }
  destruct (assets_found env t cb w0 oks Hl0 Hlen Hok) as (Ht1 & Hth1 & He1 & _).
  set (w1 := run env (map _ oks) w0) in *. clearbody w1.
  assert (tasks w1 !! t = Some (Suspended (CheckPassed cb))) as Hl1.
  { rewrite Ht1. apply list_lookup_insert_eq. by eapply lookup_lt_Some. }
  destruct (engine_started_facts env t cb w1 Hl1) as (Ht2 & Hth2 & He2 & _).
  set (w2 := step env (Resume t tick) w1) in *. clearbody w2.
  split; [|split].
  - rewrite Ht2, Ht1, Ht0, He1, He0, !list_insert_insert_eq. subst t.
    rewrite insert_app_r_alt by done. by rewrite Nat.sub_diag.
  - by rewrite Hth2, Hth1, Hth0, He1, He0.
  - by rewrite He2, He1, He0, Hth1, Hth0.
Qed.

(** X15: when the engine's boot fails, [initialize] fails with the engine's
    error and clears [initializing], but the engine it built stays in
    [this.converter] and keeps the progress callback.  So the converter is not
    ready, yet [convert] passes its guard; and progress events the failed
    engine still sends are delivered to the callback of the failed call. *)
Theorem failed_boot_leaves_the_engine_attached env w cb oks e :
  lacking env = false ->
  initialized (this (rt w)) = false ->
  initializing (this (rt w)) = false ->
  length oks = length files ->
  Forall (fun res => ok res = true) oks ->
  let t := length (tasks w) in
  let h := length (engines (rt w)) in
  let w' := run env ((Call (Initialize cb)
                      :: map (fun res => Resume t (Fulfilled (VResponse res))) oks
                      ++ [Resume t tick])
                     ++ [Resume t (Rejected e)]) w in
  tasks w' = tasks w ++ [Done (Threw e)] /\
  this (rt w') = {| converter := Some h; initialized := false; initializing := false;
                    basePath := basePath (this (rt w)) |} /\
  isReady (this (rt w')) = false /\
  (forall file outputFormat,
      step env (Call (Convert file outputFormat)) w'
      = {| rt := rt w'; tasks := tasks w' ++ [Suspended (ReadingFile file outputFormat)] |}) /\
  (forall info,
      step env (EngineProgress h info) w'
      = {| rt := notify cb (forwarded info) (rt w'); tasks := tasks w' |}).
Proof.
  intros Henv Hd Hg Hlen Hok t h w'. subst w'. rewrite run_app.
  destruct (initialize_until_boot env w cb oks Henv Hd Hg Hlen Hok) as (Ht & Hth & He).
  fold t h in Ht, Hth, He.
  set (w2 := run env (Call (Initialize cb) :: _) w) in *. clearbody w2.
  change (run env [Resume t (Rejected e)] w2) with (step env (Resume t (Rejected e)) w2).
  assert (step env (Resume t (Rejected e)) w2
          = {| rt := finally_initialize (rt w2);
               tasks := tasks w ++ [Done (Threw e)] |}) as ->.
  { unfold step. rewrite Ht, list_lookup_middle by done. cbn [resume boot_answer].
    subst t. rewrite insert_app_r_alt by done. by rewrite Nat.sub_diag. }
  cbn [rt tasks]. unfold finally_initialize at 1 2. cbn [set_this this].
  rewrite Hth. unfold isReady.
  cbn [set_initializing set_converter converter initialized basePath].
  rewrite Hd.
  split; [done|].
  split; [unfold set_initializing, set_converter; cbn; by rewrite Hd|].
  split; [done|]. split.
  - intros file fmt. simpl. unfold convert. cbn [finally_initialize set_this this].
    by rewrite Hth.
  - intros info.
    assert (initialized (this (finally_initialize (rt w2))) = false) as Hinit.
    { unfold finally_initialize. cbn [set_this this]. by rewrite Hth. }
    assert (engines (finally_initialize (rt w2)) !! h
            = Some {| options := engine_options (basePath (this (rt w)));
                      progressCallback := cb |}) as Hh.
    { unfold finally_initialize. cbn [set_this engines]. rewrite He.
      by apply list_lookup_middle. }
    unfold step, onProgress. cbn [rt tasks]. rewrite Hh, Hinit.
    by destruct cb.
Qed.

(** The theorem at work: the first boot of a fresh converter fails. *)
Lemma failed_boot_leaves_the_engine_attached_witness :
  let w := fresh None in
  let cb := Some 4 in
  let oks := replicate 5 {| status := 200; statusText := "" |} in
  let e := boot_failure in
  let t := length (tasks w) in
  let h := length (engines (rt w)) in
  let w' := run isolated ((Call (Initialize cb)
                      :: map (fun res => Resume t (Fulfilled (VResponse res))) oks
                      ++ [Resume t tick])
                     ++ [Resume t (Rejected e)]) w in
  tasks w' = tasks w ++ [Done (Threw e)] /\
  this (rt w') = {| converter := Some h; initialized := false; initializing := false;
                    basePath := basePath (this (rt w)) |} /\
  isReady (this (rt w')) = false /\
  (forall file outputFormat,
      step isolated (Call (Convert file outputFormat)) w'
      = {| rt := rt w'; tasks := tasks w' ++ [Suspended (ReadingFile file outputFormat)] |}) /\
  (forall info,
      step isolated (EngineProgress h info) w'
      = {| rt := notify cb (forwarded info) (rt w'); tasks := tasks w' |}).
Proof.
  apply (failed_boot_leaves_the_engine_attached isolated (fresh None) (Some 4)
           (replicate 5 {| status := 200; statusText := "" |}) boot_failure).
  - reflexivity.
  - reflexivity.
  - reflexivity.
  - reflexivity.
  - repeat constructor.
Defined.
